(** * AnnoyATtiny85: the tap-configured, watchdog-driven beeper

    A shallow embedding of [AnnoyATTiny85.ino] and the properties of its
    configuration ritual, its tone generator and its scheduler.

    Conventions of the embedding.
    - The target is an ATtiny85 compiled with avr-gcc: [int] has 16 bits,
      [long] 32 bits, [byte] 8 bits.  Values are integers of [Z]; every
      conversion and every arithmetic result is wrapped explicitly.
    - Time is the number of milliseconds since power-up, the granularity at
      which the sketch reads it with [millis()].  One pass of a busy loop is
      taken to last one such tick: a polling loop samples the pin once per
      millisecond and a tone loop accounts for one millisecond of sound per
      pass.
    - The activation pin is a function from time to its level; it is the
      only input of the program.
    - A pass of [loop] is one step: the watchdog interrupt that ends the
      sleep runs inside [sleep_mode], and an interrupt that arrives at any
      other moment is a step of its own.
    - Functions overloaded in the sketch carry their number of arguments as
      a suffix ([play2], [play3], [play4]). *)

From Stdlib Require Import ZArith List Bool Lia.
Import ListNotations.
Local Open Scope Z_scope.

(** ** Machine integers *)

Module Avr.

Definition wrap_signed (bits z : Z) : Z :=
  (z + 2 ^ (bits - 1)) mod 2 ^ bits - 2 ^ (bits - 1).

Definition to_int (z : Z) : Z := wrap_signed 16 z.
Definition to_long (z : Z) : Z := wrap_signed 32 z.
Definition to_uint (z : Z) : Z := z mod 2 ^ 16.
Definition to_ulong (z : Z) : Z := z mod 2 ^ 32.
Definition to_byte (z : Z) : Z := z mod 2 ^ 8.

Definition is_int (z : Z) : Prop := - 2 ^ 15 <= z < 2 ^ 15.
Definition is_long (z : Z) : Prop := - 2 ^ 31 <= z < 2 ^ 31.

End Avr.

Import Avr.

(** ** Constants of the sketch *)

Definition TEST_MIN_COUNTER_TRIGGER : Z := 2.
Definition TEST_MAX_COUNTER_TRIGGER : Z := 4.
Definition TEST_WATCHDOG_PARAM : Z := 7.
Definition DAY : Z := 10800.
Definition TEST_INITIAL_COUNTER_TRIGGER : Z := 3.
Definition ON_MICROS : Z := 300.
Definition DUTY : Z := 30.

(** Bits of the watchdog control register WDTCR (avr/io headers of the
    ATtiny25/45/85). *)
Definition WDIE : Z := 6.
Definition WDP3 : Z := 5.
Definition WDCE : Z := 4.
Definition WDE : Z := 3.

(** ** The board: clock and piezo output *)

(** [piezo] is the trace of what was written to the piezo pin, newest first:
    one pair [(high, low)] of microsecond delays per accounted pass of a tone
    loop. *)
Record Board : Type := mkBoard {
  clock : Z;
  piezo : list (Z * Z)
}.

Definition millis (b : Board) : Z := to_ulong (clock b).

Definition tick (b : Board) : Board :=
  mkBoard (clock b + 1) (piezo b).

(** [delay] takes an [unsigned long]. *)
Definition delay (ms : Z) (b : Board) : Board :=
  mkBoard (clock b + to_ulong ms) (piezo b).

(** [digitalWrite(HIGH); delayMicroseconds(pa); digitalWrite(LOW);
    delayMicroseconds(pb)]: [delayMicroseconds] takes an [unsigned int]. *)
Definition pulse (pa pb : Z) (b : Board) : Board :=
  mkBoard (clock b) ((to_uint pa, to_uint pb) :: piezo b).

(** The loop [while (end > millis()) { ... }] of [play].  While the loop runs
    the clock climbs one by one towards [end], so [end - millis()] passes are
    all it can make; that number is its fuel. *)
Fixpoint tone (n : nat) (end_ pa pb : Z) (b : Board) : Board :=
  match n with
  | O => b
  | S n' =>
      if millis b <? end_
      then tone n' end_ pa pb (tick (pulse pa pb b))
      else b
  end.

(** Time the pin is held high in each cycle. *)
Definition play_high (period duty : Z) : Z :=
  let pa := to_ulong (Z.quot (to_long (period * duty)) 100) in
  if 150 <? pa then 150 else pa.

Definition play_low (period duty : Z) : Z :=
  to_ulong (period - play_high period duty).

Definition play4 (period durationMillis pauseMillis duty : Z) (b : Board)
  : Board :=
  let end_ := to_ulong (millis b + durationMillis) in
  let pa := play_high period duty in
  let pb := play_low period duty in
  let b1 := tone (Z.to_nat (end_ - millis b)) end_ pa pb b in
  delay pauseMillis b1.

Definition play3 (period durationMillis pauseMillis : Z) : Board -> Board :=
  play4 period durationMillis pauseMillis DUTY.

Definition play2 (period durationMillis : Z) : Board -> Board :=
  play4 period durationMillis 0 DUTY.

(** ** Reading the activation pin *)

Section TapInput.

Variable pin : Z -> bool.

Definition digitalRead (b : Board) : bool := pin (clock b).

(** The loop [while (millis() < end) { ... }] of [readActivationPinBoolean],
    with the same fuel as [tone]. *)
Fixpoint watch (n : nat) (end_ period duration : Z) (b : Board)
  : bool * Board :=
  match n with
  | O => (false, b)
  | S n' =>
      if millis b <? end_ then
        if digitalRead b
        then (true, play2 period duration b)
        else watch n' end_ period duration (tick b)
      else (false, b)
  end.

Definition readActivationPinBoolean3 (period duration timeout : Z)
  (b : Board) : bool * Board :=
  let end_ := to_ulong (millis b + timeout) in
  watch (Z.to_nat (end_ - millis b)) end_ period duration b.

Definition readActivationPinBoolean2 (period timeout : Z)
  : Board -> bool * Board :=
  readActivationPinBoolean3 period ON_MICROS timeout.

Definition readActivationPinBoolean1 (period : Z) : Board -> bool * Board :=
  readActivationPinBoolean2 period 5000.

(** [while (digitalRead(activationPin) == HIGH) { delay(10); }]: a pin that
    is never released keeps the loop running, hence the fuel. *)
Fixpoint await_release (fuel : nat) (b : Board) : option Board :=
  match fuel with
  | O => None
  | S f =>
      if digitalRead b then await_release f (delay 10 b) else Some b
  end.

(** The counting loop of [readActivationPinByte]; [count] is an [int]. *)
Fixpoint count_taps (fuel inner : nat) (period timeout count : Z) (b : Board)
  : option (Z * Board) :=
  match fuel with
  | O => None
  | S f =>
      let (tapped, b1) := readActivationPinBoolean3 period 100 timeout b in
      if tapped then
        match await_release inner (delay 100 b1) with
        | None => None
        | Some b2 =>
            count_taps f inner period timeout (to_int (count + 1))
              (delay 100 b2)
        end
      else Some (count, b1)
  end.

(** The result is returned as a [byte]. *)
Definition readActivationPinByte (fuel : nat) (period timeout : Z) (b : Board)
  : option (Z * Board) :=
  match count_taps fuel fuel period timeout 0 b with
  | None => None
  | Some (count, b') => Some (to_byte count, b')
  end.

End TapInput.

(** ** The state of the sketch *)

(** The mutable globals of the sketch under their own names, the watchdog
    control register, the state of the random number generator (the seed and
    the number of values drawn since seeding), the board, and a ghost log
    [strays] of the indices at which an array was read outside its bounds
    (newest first). *)
Record Sketch : Type := mkSketch {
  MIN_COUNTER_TRIGGER : Z;
  MAX_COUNTER_TRIGGER : Z;
  WATCHDOG_PARAM : Z;
  INITIAL_COUNTER_TRIGGER : Z;
  device_count : Z;
  day_counter : Z;
  started : bool;
  counter_trigger : Z;
  watchdog_counter : Z;
  WDTCR : Z;
  seed : Z;
  draws : nat;
  strays : list Z;
  board : Board
}.

Definition set_MIN_COUNTER_TRIGGER (v : Z) (s : Sketch) : Sketch :=
  mkSketch v (MAX_COUNTER_TRIGGER s) (WATCHDOG_PARAM s)
    (INITIAL_COUNTER_TRIGGER s) (device_count s) (day_counter s) (started s)
    (counter_trigger s) (watchdog_counter s) (WDTCR s) (seed s) (draws s)
    (strays s) (board s).

Definition set_MAX_COUNTER_TRIGGER (v : Z) (s : Sketch) : Sketch :=
  mkSketch (MIN_COUNTER_TRIGGER s) v (WATCHDOG_PARAM s)
    (INITIAL_COUNTER_TRIGGER s) (device_count s) (day_counter s) (started s)
    (counter_trigger s) (watchdog_counter s) (WDTCR s) (seed s) (draws s)
    (strays s) (board s).

Definition set_WATCHDOG_PARAM (v : Z) (s : Sketch) : Sketch :=
  mkSketch (MIN_COUNTER_TRIGGER s) (MAX_COUNTER_TRIGGER s) v
    (INITIAL_COUNTER_TRIGGER s) (device_count s) (day_counter s) (started s)
    (counter_trigger s) (watchdog_counter s) (WDTCR s) (seed s) (draws s)
    (strays s) (board s).

Definition set_INITIAL_COUNTER_TRIGGER (v : Z) (s : Sketch) : Sketch :=
  mkSketch (MIN_COUNTER_TRIGGER s) (MAX_COUNTER_TRIGGER s) (WATCHDOG_PARAM s)
    v (device_count s) (day_counter s) (started s)
    (counter_trigger s) (watchdog_counter s) (WDTCR s) (seed s) (draws s)
    (strays s) (board s).

Definition set_device_count (v : Z) (s : Sketch) : Sketch :=
  mkSketch (MIN_COUNTER_TRIGGER s) (MAX_COUNTER_TRIGGER s) (WATCHDOG_PARAM s)
    (INITIAL_COUNTER_TRIGGER s) v (day_counter s) (started s)
    (counter_trigger s) (watchdog_counter s) (WDTCR s) (seed s) (draws s)
    (strays s) (board s).

Definition set_day_counter (v : Z) (s : Sketch) : Sketch :=
  mkSketch (MIN_COUNTER_TRIGGER s) (MAX_COUNTER_TRIGGER s) (WATCHDOG_PARAM s)
    (INITIAL_COUNTER_TRIGGER s) (device_count s) v (started s)
    (counter_trigger s) (watchdog_counter s) (WDTCR s) (seed s) (draws s)
    (strays s) (board s).

Definition set_started (v : bool) (s : Sketch) : Sketch :=
  mkSketch (MIN_COUNTER_TRIGGER s) (MAX_COUNTER_TRIGGER s) (WATCHDOG_PARAM s)
    (INITIAL_COUNTER_TRIGGER s) (device_count s) (day_counter s) v
    (counter_trigger s) (watchdog_counter s) (WDTCR s) (seed s) (draws s)
    (strays s) (board s).

Definition set_counter_trigger (v : Z) (s : Sketch) : Sketch :=
  mkSketch (MIN_COUNTER_TRIGGER s) (MAX_COUNTER_TRIGGER s) (WATCHDOG_PARAM s)
    (INITIAL_COUNTER_TRIGGER s) (device_count s) (day_counter s) (started s)
    v (watchdog_counter s) (WDTCR s) (seed s) (draws s)
    (strays s) (board s).

Definition set_watchdog_counter (v : Z) (s : Sketch) : Sketch :=
  mkSketch (MIN_COUNTER_TRIGGER s) (MAX_COUNTER_TRIGGER s) (WATCHDOG_PARAM s)
    (INITIAL_COUNTER_TRIGGER s) (device_count s) (day_counter s) (started s)
    (counter_trigger s) v (WDTCR s) (seed s) (draws s)
    (strays s) (board s).

Definition set_WDTCR (v : Z) (s : Sketch) : Sketch :=
  mkSketch (MIN_COUNTER_TRIGGER s) (MAX_COUNTER_TRIGGER s) (WATCHDOG_PARAM s)
    (INITIAL_COUNTER_TRIGGER s) (device_count s) (day_counter s) (started s)
    (counter_trigger s) (watchdog_counter s) v (seed s) (draws s)
    (strays s) (board s).

Definition set_rng (sd : Z) (n : nat) (s : Sketch) : Sketch :=
  mkSketch (MIN_COUNTER_TRIGGER s) (MAX_COUNTER_TRIGGER s) (WATCHDOG_PARAM s)
    (INITIAL_COUNTER_TRIGGER s) (device_count s) (day_counter s) (started s)
    (counter_trigger s) (watchdog_counter s) (WDTCR s) sd n
    (strays s) (board s).

Definition set_strays (l : list Z) (s : Sketch) : Sketch :=
  mkSketch (MIN_COUNTER_TRIGGER s) (MAX_COUNTER_TRIGGER s) (WATCHDOG_PARAM s)
    (INITIAL_COUNTER_TRIGGER s) (device_count s) (day_counter s) (started s)
    (counter_trigger s) (watchdog_counter s) (WDTCR s) (seed s) (draws s)
    l (board s).

Definition set_board (b : Board) (s : Sketch) : Sketch :=
  mkSketch (MIN_COUNTER_TRIGGER s) (MAX_COUNTER_TRIGGER s) (WATCHDOG_PARAM s)
    (INITIAL_COUNTER_TRIGGER s) (device_count s) (day_counter s) (started s)
    (counter_trigger s) (watchdog_counter s) (WDTCR s) (seed s) (draws s)
    (strays s) b.

(** A board operation run by the sketch. *)
Definition on_board (f : Board -> Board) (s : Sketch) : Sketch :=
  set_board (f (board s)) s.

(** The globals as initialised at power-up; [counter_trigger] and
    [watchdog_counter] start at zero, and so does the clock. *)
Definition power_on : Sketch :=
  {| MIN_COUNTER_TRIGGER := 37;
     MAX_COUNTER_TRIGGER := 60;
     WATCHDOG_PARAM := 9;
     INITIAL_COUNTER_TRIGGER := 1 * DAY;
     device_count := 1;
     day_counter := 0;
     started := false;
     counter_trigger := 0;
     watchdog_counter := 0;
     WDTCR := 0;
     seed := 1;
     draws := 0;
     strays := [];
     board := mkBoard 0 [] |}.

(** ** Configuration *)

Section Configuration.

Variable pin : Z -> bool.

(** [for (int x = 0; x < n; ++x) { play(400, 200, 200); }] *)
Definition beeps (n : Z) (b : Board) : Board :=
  Nat.iter (Z.to_nat n) (play3 400 200 200) b.

(** The activated branch after both counts are known. *)
Definition configure (days others : Z) (testMode : bool) (s : Sketch)
  : Sketch :=
  let s1 :=
    if negb testMode
    then on_board (play2 450 ON_MICROS) s
    else set_WATCHDOG_PARAM TEST_WATCHDOG_PARAM
           (set_INITIAL_COUNTER_TRIGGER TEST_INITIAL_COUNTER_TRIGGER
             (set_MAX_COUNTER_TRIGGER TEST_MAX_COUNTER_TRIGGER
               (set_MIN_COUNTER_TRIGGER TEST_MIN_COUNTER_TRIGGER s))) in
  let s2 := on_board (delay 100) s1 in
  let s3 :=
    set_MIN_COUNTER_TRIGGER
      (to_int (MIN_COUNTER_TRIGGER s2 * device_count s2)) s2 in
  let s4 :=
    set_MAX_COUNTER_TRIGGER
      (to_int (MAX_COUNTER_TRIGGER s3 * device_count s3)) s3 in
  set_INITIAL_COUNTER_TRIGGER
    (to_long (INITIAL_COUNTER_TRIGGER s4 + to_long (DAY * days))) s4.

(** The branch taken when the device was not activated. *)
Definition super_annoying (s : Sketch) : Sketch :=
  let s1 := on_board (play2 500 ON_MICROS) s in
  let s2 := on_board (play2 550 (ON_MICROS * 3)) s1 in
  let s3 := on_board (delay 3000) s2 in
  set_WATCHDOG_PARAM TEST_WATCHDOG_PARAM
    (set_MAX_COUNTER_TRIGGER 0
      (set_MIN_COUNTER_TRIGGER 0
        (set_INITIAL_COUNTER_TRIGGER 0 s3))).

(** [readConfiguration].  The closing loop that turns the unused pins into
    low inputs touches no part of the state kept here. *)
Definition readConfiguration (fuel : nat) (s : Sketch) : option Sketch :=
  let s0 := on_board (play2 450 ON_MICROS) s in
  let (active, b1) := readActivationPinBoolean2 pin 400 5000 (board s0) in
  if active then
    match readActivationPinByte pin fuel 400 1000 b1 with
    | None => None
    | Some (days, b2) =>
        let b3 := beeps days b2 in
        let b4 := if days =? 0 then play3 500 200 200 b3 else b3 in
        match readActivationPinByte pin fuel 400 1000 b4 with
        | None => None
        | Some (others, b5) =>
            let s1 := set_device_count (to_int (others + 1)) s0 in
            let b6 := beeps (device_count s1) b5 in
            let (testMode, b7) := readActivationPinBoolean2 pin 350 1000 b6 in
            Some (configure days others testMode (set_board b7 s1))
        end
    end
  else Some (super_annoying (set_board b1 s0)).

End Configuration.

(** ** Random numbers *)

Section Scheduler.

(** [entropy sd i] stands for the [i]-th value produced by the generator of
    avr-libc after [srandom(sd)]; [random()] returns values between 0 and
    [RANDOM_MAX] = 2^31 - 1. *)
Variable entropy : Z -> nat -> Z.

(** [beyond x] is the word found in memory at index [x] of an array, past
    its end. *)
Variable beyond : Z -> Z.

Definition libc_random (s : Sketch) : Z * Sketch :=
  (entropy (seed s) (draws s) mod 2 ^ 31, set_rng (seed s) (S (draws s)) s).

(** Arduino's [randomSeed]: a zero seed is ignored. *)
Definition randomSeed (sd : Z) (s : Sketch) : Sketch :=
  if sd =? 0 then s else set_rng sd 0 s.

(** Arduino's [random(howbig)]. *)
Definition random1 (howbig : Z) (s : Sketch) : Z * Sketch :=
  if howbig =? 0 then (0, s)
  else let (r, s') := libc_random s in (Z.rem r howbig, s').

(** Arduino's [random(howsmall, howbig)]. *)
Definition random2 (howsmall howbig : Z) (s : Sketch) : Z * Sketch :=
  if howsmall >=? howbig then (howsmall, s)
  else
    let diff := to_long (howbig - howsmall) in
    let (r, s') := random1 diff s in
    (to_long (r + howsmall), s').

Definition newTriggerCounter (s : Sketch) : Sketch :=
  let (r, s') := random2 (MIN_COUNTER_TRIGGER s) (MAX_COUNTER_TRIGGER s) s in
  set_counter_trigger r s'.

(** ** The watchdog *)

(** [setup_watchdog]; the reset flag in MCUSR is not part of the state. *)
Definition setup_watchdog (ii : Z) (s : Sketch) : Sketch :=
  let ii := if ii >? 9 then 9 else ii in
  let bb := to_byte (Z.land ii 7) in
  let bb := if ii >? 7 then to_byte (Z.lor bb (Z.shiftl 1 5)) else bb in
  let bb := to_byte (Z.lor bb (Z.shiftl 1 WDCE)) in
  let s1 :=
    set_WDTCR
      (to_byte (Z.lor (WDTCR s) (Z.lor (Z.shiftl 1 WDCE) (Z.shiftl 1 WDE))))
      s in
  let s2 := set_WDTCR bb s1 in
  set_WDTCR (to_byte (Z.lor (WDTCR s2) (Z.shiftl 1 WDIE))) s2.

(** The interrupt routine [ISR(WDT_vect)]. *)
Definition WDT_vect (s : Sketch) : Sketch :=
  set_watchdog_counter (to_long (watchdog_counter s + 1)) s.

(** [sleep_mode()]: the processor is powered down until the watchdog
    interrupt has run. *)
Definition sleep_mode (s : Sketch) : Sketch := WDT_vect s.

(** The prescaler code WDP3..WDP0 held in a value of WDTCR, and the periods
    listed above [setup_watchdog], in milliseconds. *)
Definition prescaler (reg : Z) : Z :=
  (if Z.testbit reg WDP3 then 8 else 0) + Z.land reg 7.

Definition wake_period (code : Z) : Z :=
  nth (Z.to_nat code) [16; 32; 64; 128; 250; 500; 1000; 2000; 4000; 8000] 0.

(** ** Annoyances *)

Definition annoy0 (b : Board) : Board :=
  play2 350 500 (play2 360 50 (play2 370 50 (play2 380 50
    (play2 390 50 (play2 400 50 b))))).

Definition annoy1 (b : Board) : Board :=
  play2 210 500 (play2 220 50 (play2 230 50 (play2 240 50 (play2 250 50
    (play2 260 50 (play2 270 50 (play2 280 50 (play2 290 50
      (play2 300 50 b))))))))).

Definition annoy2 (b : Board) : Board := play2 350 500 b.

(** [periods[x] = random(min, max)] for [x] from 0 while [x < 100]; the
    array is the list of the values stored, in index order. *)
Fixpoint fill (n : nat) (min max : Z) (s : Sketch) : list Z * Sketch :=
  match n with
  | O => ([], s)
  | S n' =>
      let (r, s1) := random2 min max s in
      let (rest, s2) := fill n' min max s1 in
      (to_int r :: rest, s2)
  end.

(** Reading [periods[x]]: inside the array the value stored there; outside
    it whatever lies in memory, and the index is logged. *)
Definition load (periods : list Z) (x : Z) (s : Sketch) : Z * Sketch :=
  if (0 <=? x) && (x <? Z.of_nat (length periods))
  then (nth (Z.to_nat x) periods 0, s)
  else (to_int (beyond x), set_strays (x :: strays s) s).

Definition play_at (periods : list Z) (x : Z) (s : Sketch) : Sketch :=
  let (v, s1) := load periods x s in
  on_board (play2 v 1) s1.

(** [for (int x = 0; x < 100; ++x) { play(periods[x], 1); }] *)
Fixpoint play_up (n : nat) (x : Z) (periods : list Z) (s : Sketch) : Sketch :=
  match n with
  | O => s
  | S n' =>
      if x <? 100
      then play_up n' (to_int (x + 1)) periods (play_at periods x s)
      else s
  end.

(** [for (int x = 100; x >= 0; --x) { play(periods[x], 1); }] *)
Fixpoint play_down (n : nat) (x : Z) (periods : list Z) (s : Sketch)
  : Sketch :=
  match n with
  | O => s
  | S n' =>
      if x >=? 0
      then play_down n' (to_int (x - 1)) periods (play_at periods x s)
      else s
  end.

Definition annoy3 (min max : Z) (s : Sketch) : Sketch :=
  let (periods, s1) := fill 100 min max s in
  let s2 := play_up 100 0 periods s1 in
  play_down 101 100 periods s2.

Definition annoy (s : Sketch) : Sketch :=
  let (annoyance, s1) := random2 0 6 s in
  match to_int annoyance with
  | 0 => on_board annoy0 s1
  | 1 => on_board annoy1 s1
  | 2 => on_board annoy2 s1
  | 3 => annoy3 400 500 s1
  | 4 => annoy3 300 400 s1
  | 5 => annoy3 200 300 s1
  | _ => s1
  end.

(** ** The main loop *)

(** [if (started) { day_counter++; }] *)
Definition count_day (s : Sketch) : Sketch :=
  if started s then set_day_counter (to_long (day_counter s + 1)) s else s.

(** The body of [if (device_count > 1) { ... }]. *)
Definition shrink (s : Sketch) : Sketch :=
  let s1 :=
    set_MIN_COUNTER_TRIGGER
      (to_int (to_int (Z.quot (MIN_COUNTER_TRIGGER s) (device_count s))
               * to_int (device_count s - 1))) s in
  let s2 :=
    set_MAX_COUNTER_TRIGGER
      (to_int (to_int (Z.quot (MAX_COUNTER_TRIGGER s1) (device_count s1))
               * to_int (device_count s1 - 1))) s1 in
  let s3 := set_device_count (to_int (device_count s2 - 1)) s2 in
  if WATCHDOG_PARAM s3 =? TEST_WATCHDOG_PARAM
  then on_board (play2 610 100)
         (on_board (play2 568 100) (on_board (play2 500 100) s3))
  else s3.

(** [if (day_counter >= DAY*3) { ... }] *)
Definition decay (s : Sketch) : Sketch :=
  if day_counter s >=? DAY * 3 then
    let s1 := set_day_counter 0 s in
    if device_count s1 >? 1 then shrink s1 else s1
  else s.

(** [if (watchdog_counter >= counter_trigger) { ... } else if ...] *)
Definition trigger (s : Sketch) : Sketch :=
  if watchdog_counter s >=? counter_trigger s then
    let s1 := set_watchdog_counter 0 s in
    let s2 := newTriggerCounter s1 in
    let s3 := set_started true s2 in
    annoy s3
  else if WATCHDOG_PARAM s =? TEST_WATCHDOG_PARAM
  then on_board (play2 568 100) s
  else s.

Definition loop (s : Sketch) : Sketch :=
  trigger (decay (count_day (sleep_mode s))).

(** ** Start-up *)

(** What [setup] does once [readConfiguration] has returned. *)
Definition arm (s1 : Sketch) : Sketch :=
  let s2 := randomSeed (millis (board s1)) s1 in
  let s3 := newTriggerCounter s2 in
  let s4 :=
    set_counter_trigger
      (to_long (counter_trigger s3 + INITIAL_COUNTER_TRIGGER s3)) s3 in
  setup_watchdog (WATCHDOG_PARAM s4) s4.

Variable pin : Z -> bool.

Definition setup (fuel : nat) (s : Sketch) : option Sketch :=
  match readConfiguration pin fuel s with
  | None => None
  | Some s1 => Some (arm s1)
  end.

(** ** Reachable states *)

(** The state in which [readConfiguration] leaves the sketch. *)
Definition configured (s : Sketch) : Prop :=
  exists fuel, readConfiguration pin fuel power_on = Some s.

(** The states of the running sketch: after [setup], after each pass of
    [loop], and after any further watchdog interrupt. *)
Inductive running : Sketch -> Prop :=
| run_setup : forall fuel s, setup fuel power_on = Some s -> running s
| run_loop : forall s, running s -> running (loop s)
| run_interrupt : forall s, running s -> running (WDT_vect s).

Definition reachable (s : Sketch) : Prop := configured s \/ running s.

End Scheduler.

(** * Vocabulary of the statements *)

(** A tap [(a, b)] holds the pin high from [a] inclusive to [b] exclusive. *)
Definition pressed (t : Z) (tap : Z * Z) : bool :=
  (fst tap <=? t) && (t <? snd tap).

Definition tap_signal (taps : list (Z * Z)) (t : Z) : bool :=
  existsb (pressed t) taps.

(** The pin follows the taps during the window [lo, hi). *)
Definition follows (pin : Z -> bool) (taps : list (Z * Z)) (lo hi : Z) : Prop :=
  forall t, lo <= t < hi -> pin t = tap_signal taps t.

(** Timing of a sequence of taps, the previous one released at [prev]: each
    tap starts at least 300 ms (the settle time of the reader) and less than
    a full timeout after the release of the one before, and lasts at least one
    sample. *)
Fixpoint spaced (timeout prev : Z) (taps : list (Z * Z)) : Prop :=
  match taps with
  | [] => True
  | (a, b) :: rest =>
      prev + 300 <= a /\ a < prev + timeout /\ a < b /\ spaced timeout b rest
  end.

(** Taps offered to a reader that starts listening at [c]. *)
Definition tapped_from (timeout c : Z) (taps : list (Z * Z)) : Prop :=
  match taps with
  | [] => True
  | (a, b) :: rest =>
      c <= a /\ a < c + timeout /\ a < b /\ spaced timeout b rest
  end.

(** Number of 10 ms waits of the release loop after a tap seen at [a] and
    released at [b], and the moment the release is seen. *)
Definition release_waits (a b : Z) : Z :=
  if b <=? a + 200 then 0 else (b - a - 200 + 9) / 10.

Definition release_seen (a b : Z) : Z := a + 200 + 10 * release_waits a b.

(** The moment a reader that started at [c] stops listening. *)
Fixpoint listen_end (timeout c : Z) (taps : list (Z * Z)) : Z :=
  match taps with
  | [] => c + timeout
  | (a, b) :: rest => listen_end timeout (release_seen a b + 100) rest
  end.

(** What the operator does after power-up: one activation tap, the taps that
    count days, the taps that count other devices; no tap for test mode. *)
Record Ritual : Type := mkRitual {
  act : Z * Z;
  day_taps : list (Z * Z);
  other_taps : list (Z * Z)
}.

Definition ritual_taps (R : Ritual) : list (Z * Z) :=
  act R :: day_taps R ++ other_taps R.

(** The counts as the sketch receives them, in a [byte]. *)
Definition days_heard (R : Ritual) : Z :=
  Z.of_nat (length (day_taps R)) mod 256.

Definition others_heard (R : Ritual) : Z :=
  Z.of_nat (length (other_taps R)) mod 256.

(** The moments at which the sketch starts listening for each stage: after
    the tone that acknowledges the activation, after the beeps that repeat
    the number of days, after the beeps that repeat the number of devices. *)
Definition days_start (R : Ritual) : Z := fst (act R) + ON_MICROS.

Definition others_start (R : Ritual) : Z :=
  listen_end 1000 (days_start R) (day_taps R) + 400 * Z.max 1 (days_heard R).

Definition test_start (R : Ritual) : Z :=
  listen_end 1000 (others_start R) (other_taps R)
  + 400 * (others_heard R + 1).

(** The activation tap falls in the five seconds that follow the power-on
    beep and is released before the days are counted; the taps of each stage
    are timed for the reader of that stage. *)
Definition well_timed (R : Ritual) : Prop :=
  ON_MICROS <= fst (act R) < ON_MICROS + 5000 /\
  fst (act R) < snd (act R) <= days_start R /\
  tapped_from 1000 (days_start R) (day_taps R) /\
  tapped_from 1000 (others_start R) (other_taps R).

(** A train of [n] taps of 50 ms, one every 400 ms, the first at [a]. *)
Fixpoint tap_train (n : nat) (a : Z) : list (Z * Z) :=
  match n with
  | O => []
  | S n' => (a, a + 50) :: tap_train n' (a + 400)
  end.

(** The operator who taps once to activate, 256 times for the days, and not
    at all afterwards. *)
Definition ritual_256_days : Ritual :=
  mkRitual (300, 400) (tap_train 256 700) [].

(** The operator who never touches the pin. *)
Definition untouched : Z -> bool := fun _ => false.

(** The state in which [readConfiguration] leaves a device that was not
    activated: the power-on beep, five seconds of listening, then the
    super-annoying settings. *)
Definition unactivated : Sketch :=
  let s0 := on_board (play2 450 ON_MICROS) power_on in
  super_annoying
    (set_board (mkBoard (ON_MICROS + 5000) (piezo (board s0))) s0).

(** Three taps for the days and two for the other devices. *)
Definition ritual_3_days_2_others : Ritual :=
  mkRitual (1000, 1100) (tap_train 3 1500) (tap_train 2 5000).

(** Every global holds a value of its C type. *)
Definition typed (s : Sketch) : Prop :=
  is_int (MIN_COUNTER_TRIGGER s) /\ is_int (MAX_COUNTER_TRIGGER s) /\
  is_int (WATCHDOG_PARAM s) /\ is_long (INITIAL_COUNTER_TRIGGER s) /\
  is_int (device_count s) /\ is_long (day_counter s) /\
  is_long (counter_trigger s) /\ is_long (watchdog_counter s).

(** The invariant of the interval bounds and of the device count. *)
Definition bounds_ok (s : Sketch) : Prop :=
  MIN_COUNTER_TRIGGER s <= MAX_COUNTER_TRIGGER s /\ 1 <= device_count s.

(** The globals of the sketch and the watchdog register, without the
    generator, the board and the ghost log. *)
Definition globals (s : Sketch)
  : Z * Z * Z * Z * Z * Z * bool * Z * Z * Z :=
  (MIN_COUNTER_TRIGGER s, MAX_COUNTER_TRIGGER s, WATCHDOG_PARAM s,
   INITIAL_COUNTER_TRIGGER s, device_count s, day_counter s, started s,
   counter_trigger s, watchdog_counter s, WDTCR s).

(** A generator that always yields zero, and memory that holds zero past
    the end of every array. *)
Definition no_entropy : Z -> nat -> Z := fun _ _ => 0.
Definition no_stray : Z -> Z := fun _ => 0.

(** The wake period of code [code] is the shortest the watchdog offers. *)
Definition fastest_wake_period (code : Z) : Prop :=
  forall c, 0 <= c <= 9 -> wake_period code <= wake_period c.

(** The bounds and the device count, which are what decay changes. *)
Definition bounds (s : Sketch) : Z * Z * Z :=
  (MIN_COUNTER_TRIGGER s, MAX_COUNTER_TRIGGER s, device_count s).

(** A started device one wake short of a multi-day boundary. *)
Definition eve (s : Sketch) : Sketch :=
  set_started true (set_day_counter (DAY * 3 - 1) s).

(** A pass of [loop] that falls on a multi-day boundary. *)
Definition next_boundary (entropy : Z -> nat -> Z) (beyond : Z -> Z)
  (s : Sketch) : Sketch :=
  loop entropy beyond (eve s).

(** Four devices with bounds (100, 200). *)
Definition four_devices : Sketch :=
  set_device_count 4
    (set_MAX_COUNTER_TRIGGER 200 (set_MIN_COUNTER_TRIGGER 100 power_on)).

(** The three ways a device can be configured: the interval bounds are a
    fixed pair times the device count, and the watchdog code goes with the
    pair. *)
Definition mode (lo hi wd : Z) (s : Sketch) : Prop :=
  MIN_COUNTER_TRIGGER s = lo * device_count s /\
  MAX_COUNTER_TRIGGER s = hi * device_count s /\
  WATCHDOG_PARAM s = wd /\
  1 <= device_count s <= 256.

Definition in_a_mode (s : Sketch) : Prop :=
  mode 37 60 9 s \/
  mode TEST_MIN_COUNTER_TRIGGER TEST_MAX_COUNTER_TRIGGER TEST_WATCHDOG_PARAM s
  \/ mode 0 0 TEST_WATCHDOG_PARAM s.

(** ** The pins *)

(** Direction and output latch of each digital pin.  On an input the latch
    selects the pull-up. *)
Inductive PinMode : Type := INPUT | OUTPUT.

Definition Pins : Type := Z -> PinMode * bool.

Definition piezoPin : Z := 3.
Definition activationPin : Z := 2.

Definition pinMode (x : Z) (m : PinMode) (P : Pins) : Pins :=
  fun y => if y =? x then (m, snd (P y)) else P y.

Definition digitalWrite (x : Z) (v : bool) (P : Pins) : Pins :=
  fun y => if y =? x then (fst (P y), v) else P y.

(** The loop that closes [readConfiguration]:
    [for (int x = 0; x <= 4; x++) if (x != piezoPin) { pinMode(x, INPUT);
    digitalWrite(x, LOW); }] *)
Fixpoint park_pins (n : nat) (x : Z) (P : Pins) : Pins :=
  match n with
  | O => P
  | S n' =>
      if x <=? 4 then
        park_pins n' (to_int (x + 1))
          (if negb (x =? piezoPin)
           then digitalWrite x false (pinMode x INPUT P)
           else P)
      else P
  end.

(** What [setup] does to the pins: the two [pinMode] calls that open it and
    the loop that closes [readConfiguration]. *)
Definition setup_pins (P : Pins) : Pins :=
  park_pins 5 0 (pinMode activationPin INPUT (pinMode piezoPin OUTPUT P)).


(** A pin that is high all the time. *)
Definition shorted : Z -> bool := fun _ => true.

(** The settings that configuration decides. *)
Definition settings (s : Sketch) : Z * Z * Z * Z * Z :=
  (MIN_COUNTER_TRIGGER s, MAX_COUNTER_TRIGGER s, INITIAL_COUNTER_TRIGGER s,
   WATCHDOG_PARAM s, device_count s).

(** A device armed with a threshold of five wakes. *)
Definition five_to_go : Sketch := set_counter_trigger 5 power_on.

(** * Properties *)

(** ** Machine integers *)

Lemma to_ulong_small (z : Z) : 0 <= z < 2 ^ 32 -> to_ulong z = z.
Proof. intros H. unfold to_ulong. apply Z.mod_small. exact H. Qed.

Lemma to_uint_small (z : Z) : 0 <= z < 2 ^ 16 -> to_uint z = z.
Proof. intros H. unfold to_uint. apply Z.mod_small. exact H. Qed.

Lemma to_byte_small (z : Z) : 0 <= z < 2 ^ 8 -> to_byte z = z.
Proof. intros H. unfold to_byte. apply Z.mod_small. exact H. Qed.

Lemma to_int_small (z : Z) : is_int z -> to_int z = z.
Proof.
  unfold is_int, to_int, wrap_signed. intros H.
  rewrite Z.mod_small; lia.
Qed.

Lemma to_long_small (z : Z) : is_long z -> to_long z = z.
Proof.
  unfold is_long, to_long, wrap_signed. intros H.
  rewrite Z.mod_small; lia.
Qed.

Lemma to_int_range (z : Z) : is_int (to_int z).
Proof.
  unfold is_int, to_int, wrap_signed.
  pose proof (Z.mod_pos_bound (z + 2 ^ (16 - 1)) (2 ^ 16) ltac:(lia)).
  change (2 ^ (16 - 1)) with 32768 in *. change (2 ^ 16) with 65536 in *.
  change (2 ^ 15) with 32768. lia.
Qed.

Lemma to_long_range (z : Z) : is_long (to_long z).
Proof.
  unfold is_long, to_long, wrap_signed.
  pose proof (Z.mod_pos_bound (z + 2 ^ (32 - 1)) (2 ^ 32) ltac:(lia)).
  change (2 ^ (32 - 1)) with 2147483648 in *.
  change (2 ^ 32) with 4294967296 in *.
  change (2 ^ 31) with 2147483648. lia.
Qed.

Lemma to_byte_range (z : Z) : 0 <= to_byte z < 256.
Proof. unfold to_byte. apply (Z.mod_pos_bound z (2 ^ 8)). lia. Qed.

(** Counting in an [int] and returning a [byte] keeps the count modulo 256. *)
Lemma to_byte_to_int (z : Z) : to_byte (to_int z) = z mod 256.
Proof.
  unfold to_byte, to_int, wrap_signed.
  change (2 ^ (16 - 1)) with 32768. change (2 ^ 16) with 65536.
  change (2 ^ 8) with 256.
  pose proof (Z.div_mod (z + 32768) 65536 ltac:(lia)) as E.
  replace ((z + 32768) mod 65536 - 32768)
    with (z + (- 256 * ((z + 32768) / 65536)) * 256) by lia.
  apply Z_mod_plus_full.
Qed.

Lemma to_byte_count_succ (count n : Z) :
  to_byte count = n mod 256 ->
  to_byte (to_int (count + 1)) = (n + 1) mod 256.
Proof.
  intros H. rewrite to_byte_to_int.
  unfold to_byte in H. change (2 ^ 8) with 256 in H.
  rewrite <- Zplus_mod_idemp_l, H, Zplus_mod_idemp_l. reflexivity.
Qed.

(** ** The clock under [play] and the polling loops *)

Lemma board_eta (b : Board) : mkBoard (clock b) (piezo b) = b.
Proof. destruct b; reflexivity. Qed.

Lemma millis_small (b : Board) : 0 <= clock b < 2 ^ 32 -> millis b = clock b.
Proof. apply to_ulong_small. Qed.

Lemma tone_clock (n : nat) : forall (end_ pa pb : Z) (b : Board),
  0 <= clock b ->
  end_ = clock b + Z.of_nat n ->
  end_ < 2 ^ 32 ->
  clock (tone n end_ pa pb b) = end_.
Proof.
  induction n as [|n IH]; intros end_ pa pb b H0 He Hlt.
  - simpl. lia.
  - cbn [tone]. rewrite millis_small by lia.
    destruct (Z.ltb_spec (clock b) end_) as [_|Hge]; [|lia].
    apply IH; cbn [tick pulse clock]; lia.
Qed.

Lemma play4_clock (period dur pause duty : Z) (b : Board) :
  0 <= clock b -> 0 <= dur -> clock b + dur < 2 ^ 32 ->
  0 <= pause < 2 ^ 32 ->
  clock (play4 period dur pause duty b) = clock b + dur + pause.
Proof.
  intros H0 Hd Hlt Hp. unfold play4, delay. cbn [clock].
  rewrite (millis_small b) by lia.
  rewrite (to_ulong_small (clock b + dur)) by lia.
  rewrite (to_ulong_small pause) by lia.
  rewrite tone_clock; lia.
Qed.

Lemma play2_clock (period dur : Z) (b : Board) :
  0 <= clock b -> 0 <= dur -> clock b + dur < 2 ^ 32 ->
  clock (play2 period dur b) = clock b + dur.
Proof.
  intros. unfold play2. rewrite play4_clock; lia.
Qed.

Lemma play3_clock (period dur pause : Z) (b : Board) :
  0 <= clock b -> 0 <= dur -> clock b + dur < 2 ^ 32 ->
  0 <= pause < 2 ^ 32 ->
  clock (play3 period dur pause b) = clock b + dur + pause.
Proof.
  intros. unfold play3. apply play4_clock; lia.
Qed.

Lemma delay_clock (ms : Z) (b : Board) :
  0 <= ms < 2 ^ 32 -> clock (delay ms b) = clock b + ms.
Proof. intros. unfold delay. cbn [clock]. rewrite to_ulong_small; lia. Qed.

(** Both busy loops leave only when their condition has become false: the
    fuel never cuts them short. *)
Lemma tone_exit (n : nat) : forall (end_ pa pb : Z) (b : Board),
  end_ - millis b <= Z.of_nat n -> end_ < 2 ^ 32 ->
  (millis (tone n end_ pa pb b) <? end_) = false.
Proof.
  induction n as [|n IH]; intros end_ pa pb b Hn Hlt.
  - simpl. apply Z.ltb_ge. lia.
  - cbn [tone]. destruct (Z.ltb_spec (millis b) end_) as [Hl|Hge].
    + apply IH; [|exact Hlt].
      unfold millis, tick, pulse in *. cbn [clock].
      pose proof (Z.mod_pos_bound (clock b) (2 ^ 32) ltac:(lia)) as Hb.
      unfold to_ulong in *.
      rewrite <- Zplus_mod_idemp_l. rewrite Z.mod_small; lia.
    + apply Z.ltb_ge. exact Hge.
Qed.

Section TapInputFacts.

Variable pin : Z -> bool.

Lemma watch_exit (n : nat) : forall (end_ period dur : Z) (b : Board),
  end_ - millis b <= Z.of_nat n -> end_ < 2 ^ 32 ->
  fst (watch pin n end_ period dur b) = false ->
  (millis (snd (watch pin n end_ period dur b)) <? end_) = false.
Proof.
  induction n as [|n IH]; intros end_ period dur b Hn Hlt.
  - simpl. intros _. apply Z.ltb_ge. lia.
  - cbn [watch]. destruct (Z.ltb_spec (millis b) end_) as [Hl|Hge].
    + destruct (digitalRead pin b); [discriminate|].
      apply IH; [|exact Hlt].
      unfold millis, tick in *. cbn [clock].
      pose proof (Z.mod_pos_bound (clock b) (2 ^ 32) ltac:(lia)) as Hb.
      unfold to_ulong in *.
      rewrite <- Zplus_mod_idemp_l. rewrite Z.mod_small; lia.
    + intros _. cbn [snd]. apply Z.ltb_ge. exact Hge.
Qed.

(** The pin goes high at [a], before the deadline: the tap is seen at [a]. *)
Lemma watch_hit (n : nat) : forall (end_ period dur a : Z) (b : Board),
  0 <= clock b <= a -> a < end_ -> end_ < 2 ^ 32 ->
  a - clock b < Z.of_nat n ->
  (forall t, clock b <= t < a -> pin t = false) ->
  pin a = true ->
  watch pin n end_ period dur b
  = (true, play2 period dur (mkBoard a (piezo b))).
Proof.
  induction n as [|n IH]; intros end_ period dur a b Hc Ha He Hn Hlow Hhigh.
  - lia.
  - cbn [watch]. rewrite millis_small by lia.
    destruct (Z.ltb_spec (clock b) end_) as [_|Hge]; [|lia].
    unfold digitalRead.
    destruct (Z.eq_dec (clock b) a) as [E|Hne].
    + subst a. rewrite Hhigh. rewrite board_eta. reflexivity.
    + rewrite Hlow by lia.
      rewrite (IH end_ period dur a (tick b)); cbn [tick clock piezo];
        try lia; auto.
      intros t Ht. apply Hlow. lia.
Qed.

(** The pin stays low until the deadline: the loop gives up at the
    deadline. *)
Lemma watch_miss (n : nat) : forall (end_ period dur : Z) (b : Board),
  0 <= clock b -> end_ = clock b + Z.of_nat n -> end_ < 2 ^ 32 ->
  (forall t, clock b <= t < end_ -> pin t = false) ->
  watch pin n end_ period dur b = (false, mkBoard end_ (piezo b)).
Proof.
  induction n as [|n IH]; intros end_ period dur b Hc He Hlt Hlow.
  - simpl. f_equal. rewrite <- (board_eta b) at 1. f_equal. lia.
  - cbn [watch]. rewrite millis_small by lia.
    destruct (Z.ltb_spec (clock b) end_) as [_|Hge]; [|lia].
    unfold digitalRead. rewrite Hlow by lia.
    rewrite (IH end_ period dur (tick b)); cbn [tick clock piezo];
      try lia; auto.
    intros t Ht. apply Hlow. lia.
Qed.

Lemma readActivationPinBoolean3_hit (period dur timeout a : Z) (b : Board) :
  0 <= clock b <= a -> a < clock b + timeout ->
  clock b + timeout < 2 ^ 32 ->
  (forall t, clock b <= t < a -> pin t = false) ->
  pin a = true ->
  readActivationPinBoolean3 pin period dur timeout b
  = (true, play2 period dur (mkBoard a (piezo b))).
Proof.
  intros Hc Ha Hlt Hlow Hhigh. unfold readActivationPinBoolean3.
  rewrite (millis_small b) by lia.
  rewrite to_ulong_small by lia.
  apply watch_hit; try lia; auto.
Qed.

Lemma readActivationPinBoolean3_miss (period dur timeout : Z) (b : Board) :
  0 <= clock b -> 0 <= timeout -> clock b + timeout < 2 ^ 32 ->
  (forall t, clock b <= t < clock b + timeout -> pin t = false) ->
  readActivationPinBoolean3 pin period dur timeout b
  = (false, mkBoard (clock b + timeout) (piezo b)).
Proof.
  intros Hc Ht Hlt Hlow. unfold readActivationPinBoolean3.
  rewrite (millis_small b) by lia.
  rewrite to_ulong_small by lia.
  apply watch_miss; try lia; auto.
Qed.

End TapInputFacts.

(** ** Taps *)

Lemma release_waits_bounds (a b : Z) :
  a < b ->
  0 <= release_waits a b /\
  b <= release_seen a b /\
  release_seen a b <= Z.max (a + 200) (b + 9) /\
  (forall i, 0 <= i < release_waits a b -> a + 200 + 10 * i < b).
Proof.
  intros Hab. unfold release_seen, release_waits.
  destruct (Z.leb_spec b (a + 200)) as [Hle|Hgt].
  - repeat split; try lia.
  - pose proof (Z.div_mod (b - a - 200 + 9) 10 ltac:(lia)) as E.
    pose proof (Z.mod_pos_bound (b - a - 200 + 9) 10 ltac:(lia)) as R.
    repeat split; try lia.
Qed.

Lemma spaced_quiet (timeout : Z) (taps : list (Z * Z)) :
  forall prev t, spaced timeout prev taps -> t < prev + 300 ->
  tap_signal taps t = false.
Proof.
  induction taps as [|[a b] rest IH]; intros prev t Hs Ht.
  - reflexivity.
  - cbn [spaced] in Hs. destruct Hs as (H1 & H2 & H3 & H4).
    unfold tap_signal. cbn [existsb]. fold (tap_signal rest t).
    rewrite (IH b t H4) by lia.
    unfold pressed. cbn [fst snd].
    destruct (Z.leb_spec a t); [lia|]. reflexivity.
Qed.

Lemma spaced_tapped_from (timeout a b : Z) (rest : list (Z * Z)) :
  a < b -> spaced timeout b rest ->
  tapped_from timeout (release_seen a b + 100) rest.
Proof.
  intros Hab Hs. pose proof (release_waits_bounds a b Hab) as (_ & Hb & Hm & _).
  destruct rest as [|[a' b'] rest']; [exact I|].
  cbn [spaced] in Hs. destruct Hs as (H1 & H2 & H3 & H4).
  cbn [tapped_from]. repeat split; try lia; auto.
Qed.

Lemma listen_end_length (timeout : Z) (taps : list (Z * Z)) :
  forall c, tapped_from timeout c taps ->
  c + 300 * Z.of_nat (length taps) + timeout <= listen_end timeout c taps.
Proof.
  induction taps as [|[a b] rest IH]; intros c Ht.
  - cbn. lia.
  - cbn [listen_end]. cbn [tapped_from] in Ht.
    destruct Ht as (H1 & H2 & H3 & H4).
    pose proof (release_waits_bounds a b H3) as (Hw & _ & _ & _).
    pose proof (IH _ (spaced_tapped_from timeout a b rest H3 H4)).
    unfold release_seen in *. cbn [length]. lia.
Qed.

Lemma listen_end_ge (timeout : Z) (taps : list (Z * Z)) (c : Z) :
  tapped_from timeout c taps ->
  c + timeout <= listen_end timeout c taps.
Proof.
  intros Ht. pose proof (listen_end_length timeout taps c Ht). lia.
Qed.

Section CountingTaps.

Variable pin : Z -> bool.

Lemma await_release_seen (inner : nat) : forall (j r0 : Z) (b : Board),
  clock b = r0 -> 0 <= j -> j < Z.of_nat inner ->
  (forall i, 0 <= i < j -> pin (r0 + 10 * i) = true) ->
  pin (r0 + 10 * j) = false ->
  await_release pin inner b = Some (mkBoard (r0 + 10 * j) (piezo b)).
Proof.
  induction inner as [|inner IH]; intros j r0 b Hc Hj Hin Hhigh Hlow.
  - lia.
  - cbn [await_release]. unfold digitalRead. rewrite Hc.
    destruct (Z.eq_dec j 0) as [->|Hne].
    + replace (r0 + 10 * 0) with r0 in * by lia. rewrite Hlow.
      rewrite <- Hc. rewrite board_eta. reflexivity.
    + rewrite <- (Z.add_0_r r0) at 1. change 0 with (10 * 0) at 1.
      rewrite Hhigh by lia.
      rewrite (IH (j - 1) (r0 + 10) (delay 10 b)).
      * cbn [delay piezo]. do 2 f_equal. lia.
      * rewrite delay_clock; lia.
      * lia.
      * lia.
      * intros i Hi. replace (r0 + 10 + 10 * i) with (r0 + 10 * (i + 1)) by lia.
        apply Hhigh. lia.
      * replace (r0 + 10 + 10 * (j - 1)) with (r0 + 10 * j) by lia. exact Hlow.
Qed.

(** The counting loop on well-timed taps: it ends when [listen_end] says,
    having counted them all (in an [int], of which the caller keeps the low
    byte). *)
Lemma count_taps_spec (period timeout : Z) (taps : list (Z * Z)) :
  forall (fuel inner : nat) (c count n0 : Z) (b : Board),
  0 <= timeout ->
  clock b = c -> 0 <= c ->
  tapped_from timeout c taps ->
  follows pin taps c (listen_end timeout c taps) ->
  listen_end timeout c taps < 2 ^ 32 ->
  (length taps < fuel)%nat ->
  listen_end timeout c taps < Z.of_nat inner ->
  to_byte count = n0 mod 256 ->
  exists count' b',
    count_taps pin fuel inner period timeout count b = Some (count', b') /\
    clock b' = listen_end timeout c taps /\
    to_byte count' = (n0 + Z.of_nat (length taps)) mod 256.
Proof.
  induction taps as [|[a e] rest IH];
    intros fuel inner c count n0 b Hto Hc Hc0 Htap Hpin Hlt Hfuel Hinner Hcount.
  - destruct fuel as [|fuel]; [cbn in Hfuel; lia|].
    cbn [listen_end] in *. cbn [count_taps].
    rewrite readActivationPinBoolean3_miss; try lia.
    + exists count, (mkBoard (clock b + timeout) (piezo b)).
      cbn [clock length]. repeat split; try lia.
      rewrite Z.add_0_r. exact Hcount.
    + intros t Ht. rewrite Hpin by lia. reflexivity.
  - destruct fuel as [|fuel]; [cbn in Hfuel; lia|].
    cbn [tapped_from] in Htap. destruct Htap as (H1 & H2 & H3 & H4).
    pose proof (release_waits_bounds a e H3) as (Hw0 & Hre & Hrm & Hheld).
    pose proof (spaced_tapped_from timeout a e rest H3 H4) as Hnext.
    pose proof (listen_end_ge timeout rest _ Hnext) as Hend.
    cbn [listen_end] in Hpin, Hlt, Hinner |- *.
    set (r := release_seen a e) in *.
    assert (Hra : r = a + 200 + 10 * release_waits a e) by reflexivity.
    assert (Hsig : forall t, c <= t < r + 100 ->
              pin t = pressed t (a, e)).
    { intros t Ht. rewrite Hpin by lia. unfold tap_signal. cbn [existsb].
      fold (tap_signal rest t).
      rewrite (spaced_quiet timeout rest e t H4) by lia.
      apply orb_false_r. }
    cbn [count_taps].
    rewrite (readActivationPinBoolean3_hit pin period 100 timeout a b);
      try lia.
    + set (b1 := play2 period 100 (mkBoard a (piezo b))).
      assert (Hb1 : clock b1 = a + 100).
      { unfold b1. rewrite play2_clock; cbn [clock]; lia. }
      rewrite (await_release_seen inner (release_waits a e) (a + 200)
                 (delay 100 b1)).
      * set (b2 := delay 100
                     (mkBoard (a + 200 + 10 * release_waits a e)
                        (piezo (delay 100 b1)))).
        assert (Hb2 : clock b2 = r + 100).
        { unfold b2. rewrite delay_clock; cbn [clock]; lia. }
        destruct (IH fuel inner (r + 100) (to_int (count + 1)) (n0 + 1) b2)
          as (count' & b' & Hrun & Hclk & Hcnt); try lia; auto.
        -- intros t Ht. rewrite Hpin by lia. unfold tap_signal.
           cbn [existsb]. fold (tap_signal rest t).
           unfold pressed at 1. cbn [fst snd].
           destruct (Z.ltb_spec t e); [lia|].
           rewrite andb_false_r. reflexivity.
        -- cbn [length] in Hfuel. lia.
        -- apply to_byte_count_succ. exact Hcount.
        -- exists count', b'. repeat split; auto.
           rewrite Hcnt. f_equal. cbn [length]. lia.
      * rewrite delay_clock; lia.
      * exact Hw0.
      * lia.
      * intros i Hi. rewrite Hsig by lia.
        unfold pressed. cbn [fst snd]. specialize (Hheld i Hi).
        destruct (Z.leb_spec a (a + 200 + 10 * i)); [|lia].
        destruct (Z.ltb_spec (a + 200 + 10 * i) e); [|lia]. reflexivity.
      * rewrite Hsig by lia. unfold pressed. cbn [fst snd].
        destruct (Z.ltb_spec (a + 200 + 10 * release_waits a e) e); [lia|].
        apply andb_false_r.
    + intros t Ht. rewrite Hsig by lia. unfold pressed. cbn [fst snd].
      destruct (Z.leb_spec a t); [lia|]. reflexivity.
    + rewrite Hsig by lia. unfold pressed. cbn [fst snd].
      destruct (Z.leb_spec a a); [|lia].
      destruct (Z.ltb_spec a e); [|lia]. reflexivity.
Qed.

Lemma readActivationPinByte_spec (period timeout : Z) (taps : list (Z * Z))
  (fuel : nat) (c : Z) (b : Board) :
  0 <= timeout ->
  clock b = c -> 0 <= c ->
  tapped_from timeout c taps ->
  follows pin taps c (listen_end timeout c taps) ->
  listen_end timeout c taps < 2 ^ 32 ->
  listen_end timeout c taps < Z.of_nat fuel ->
  exists b',
    readActivationPinByte pin fuel period timeout b
    = Some (Z.of_nat (length taps) mod 256, b') /\
    clock b' = listen_end timeout c taps.
Proof.
  intros Hto Hc Hc0 Htap Hpin Hlt Hfuel.
  pose proof (listen_end_length timeout taps c Htap) as Hge.
  destruct (count_taps_spec period timeout taps fuel fuel c 0 0 b)
    as (count' & b' & Hrun & Hclk & Hcnt); auto; try lia.
  exists b'. unfold readActivationPinByte. rewrite Hrun, Hcnt.
  split; [reflexivity|exact Hclk].
Qed.

End CountingTaps.

(** ** The configuration ritual *)

Lemma tap_signal_app (l1 l2 : list (Z * Z)) (t : Z) :
  tap_signal (l1 ++ l2) t = tap_signal l1 t || tap_signal l2 t.
Proof. unfold tap_signal. apply existsb_app. Qed.

Lemma tapped_from_quiet_before (timeout c t : Z) (taps : list (Z * Z)) :
  tapped_from timeout c taps -> t < c -> tap_signal taps t = false.
Proof.
  destruct taps as [|[a b] rest]; [reflexivity|].
  cbn [tapped_from]. intros (H1 & H2 & H3 & H4) Ht.
  unfold tap_signal. cbn [existsb]. fold (tap_signal rest t).
  rewrite (spaced_quiet timeout rest b t H4) by lia.
  unfold pressed. cbn [fst snd].
  destruct (Z.leb_spec a t); [lia|]. reflexivity.
Qed.

Lemma tapped_from_quiet_after (timeout : Z) (taps : list (Z * Z)) :
  forall c t, tapped_from timeout c taps ->
  listen_end timeout c taps - timeout <= t ->
  tap_signal taps t = false.
Proof.
  induction taps as [|[a b] rest IH]; intros c t Htap Ht.
  - reflexivity.
  - cbn [tapped_from] in Htap. destruct Htap as (H1 & H2 & H3 & H4).
    pose proof (release_waits_bounds a b H3) as (_ & Hre & _ & _).
    pose proof (spaced_tapped_from timeout a b rest H3 H4) as Hnext.
    pose proof (listen_end_ge timeout rest _ Hnext) as Hend.
    cbn [listen_end] in Ht.
    unfold tap_signal. cbn [existsb]. fold (tap_signal rest t).
    rewrite (IH _ t Hnext Ht).
    unfold pressed. cbn [fst snd].
    destruct (Z.ltb_spec t b); [lia|]. rewrite andb_false_r. reflexivity.
Qed.

Lemma beeps_iter_clock (k : nat) (b : Board) :
  0 <= clock b -> clock b + 400 * Z.of_nat k < 2 ^ 32 ->
  clock (Nat.iter k (play3 400 200 200) b) = clock b + 400 * Z.of_nat k.
Proof.
  induction k as [|k IH]; intros Hc Hlt.
  - cbn. lia.
  - rewrite Nat.iter_succ. rewrite play3_clock; rewrite ?IH; lia.
Qed.

Lemma beeps_clock (n : Z) (b : Board) :
  0 <= n -> 0 <= clock b -> clock b + 400 * n < 2 ^ 32 ->
  clock (beeps n b) = clock b + 400 * n.
Proof.
  intros Hn Hc Hlt. unfold beeps.
  rewrite beeps_iter_clock; rewrite ?Z2Nat.id; lia.
Qed.

(** Reading a field of an updated state. *)
Ltac sketch_fields :=
  cbn [MIN_COUNTER_TRIGGER MAX_COUNTER_TRIGGER WATCHDOG_PARAM
       INITIAL_COUNTER_TRIGGER device_count day_counter started
       counter_trigger watchdog_counter WDTCR seed draws strays board
       set_MIN_COUNTER_TRIGGER set_MAX_COUNTER_TRIGGER set_WATCHDOG_PARAM
       set_INITIAL_COUNTER_TRIGGER set_device_count set_day_counter
       set_started set_counter_trigger set_watchdog_counter set_WDTCR
       set_rng set_strays set_board on_board] in *.

Section ConfigurationFacts.

Variable pin : Z -> bool.

Lemma heard_range (l : list (Z * Z)) : 0 <= Z.of_nat (length l) mod 256 < 256.
Proof. apply Z.mod_pos_bound. lia. Qed.

(** An activated run without test mode, on a well-timed ritual. *)
Lemma readConfiguration_activated (R : Ritual) (fuel : nat) :
  well_timed R ->
  follows pin (ritual_taps R) ON_MICROS (test_start R + 1000) ->
  test_start R + 1000 + ON_MICROS < 2 ^ 32 ->
  test_start R < Z.of_nat fuel ->
  exists s,
    readConfiguration pin fuel power_on = Some s /\
    device_count s = others_heard R + 1 /\
    MIN_COUNTER_TRIGGER s
    = MIN_COUNTER_TRIGGER power_on * (others_heard R + 1) /\
    MAX_COUNTER_TRIGGER s
    = MAX_COUNTER_TRIGGER power_on * (others_heard R + 1) /\
    INITIAL_COUNTER_TRIGGER s
    = INITIAL_COUNTER_TRIGGER power_on + DAY * days_heard R /\
    WATCHDOG_PARAM s = WATCHDOG_PARAM power_on.
Proof.
  destruct R as [[a0 e0] Ld Lk].
  unfold well_timed, ritual_taps, test_start, others_start, days_start,
    others_heard, days_heard.
  cbn [act day_taps other_taps fst snd].
  pose proof (heard_range Ld) as Hd. pose proof (heard_range Lk) as Hk.
  set (d := Z.of_nat (length Ld) mod 256) in *.
  set (k := Z.of_nat (length Lk) mod 256) in *.
  set (c2 := a0 + ON_MICROS).
  set (e2 := listen_end 1000 c2 Ld).
  set (c3 := e2 + 400 * Z.max 1 d).
  set (e3 := listen_end 1000 c3 Lk).
  set (c4 := e3 + 400 * (k + 1)).
  intros (Ha & He & Hday & Hoth) Hpin Hwrap Hfuel.
  pose proof (listen_end_ge 1000 Ld c2 Hday) as Hge2. fold e2 in Hge2.
  pose proof (listen_end_ge 1000 Lk c3 Hoth) as Hge3. fold e3 in Hge3.
  unfold ON_MICROS in *.
  (* power-on beep *)
  unfold readConfiguration, readActivationPinBoolean2, ON_MICROS.
  set (s0 := on_board (play2 450 300) power_on).
  assert (Hb0 : clock (board s0) = 300).
  { unfold s0, on_board. cbn [board set_board power_on].
    rewrite play2_clock; cbn [clock]; lia. }
  (* activation *)
  assert (Hsig : forall t, 300 <= t < c4 + 1000 ->
            pin t = pressed t (a0, e0) || tap_signal Ld t || tap_signal Lk t).
  { intros t Ht. rewrite Hpin by lia. unfold tap_signal at 1.
    cbn [existsb]. fold (tap_signal (Ld ++ Lk) t).
    rewrite tap_signal_app. apply orb_assoc. }
  assert (Hc3 : e2 + 400 <= c3) by (unfold c3; lia).
  assert (Hc4 : e3 + 400 <= c4) by (unfold c4; lia).
  rewrite (readActivationPinBoolean3_hit pin 400 300 5000 a0 (board s0));
    try lia.
  2:{ intros t Ht. rewrite Hsig by lia.
      rewrite (tapped_from_quiet_before 1000 c2 t Ld Hday) by (unfold c2; lia).
      rewrite (tapped_from_quiet_before 1000 c3 t Lk Hoth) by (unfold c2 in *; lia).
      unfold pressed. cbn [fst snd].
      destruct (Z.leb_spec a0 t); [lia|]. reflexivity. }
  2:{ rewrite Hsig by (unfold c2 in *; lia). unfold pressed. cbn [fst snd].
      destruct (Z.leb_spec a0 a0); [|lia].
      destruct (Z.ltb_spec a0 e0); [|lia]. reflexivity. }
  set (b1 := play2 400 300 (mkBoard a0 (piezo (board s0)))).
  assert (Hb1 : clock b1 = c2).
  { unfold b1, c2. rewrite play2_clock; cbn [clock]; lia. }
  (* days *)
  destruct (readActivationPinByte_spec pin 400 1000 Ld fuel c2 b1)
    as (b2 & Hrun2 & Hb2); try (unfold c2 in *; lia); auto.
  { intros t Ht. fold e2 in Ht. rewrite Hsig by (unfold c2 in *; lia).
    rewrite (tapped_from_quiet_before 1000 c3 t Lk Hoth) by lia.
    unfold pressed. cbn [fst snd].
    destruct (Z.ltb_spec t e0); [unfold c2 in *; lia|].
    rewrite andb_false_r, orb_false_r. reflexivity. }
  rewrite Hrun2. fold d. fold e2 in Hb2.
  set (b3 := beeps d b2).
  assert (Hb3 : clock b3 = e2 + 400 * d).
  { unfold b3. rewrite beeps_clock; unfold c2 in *; lia. }
  set (b4 := if d =? 0 then play3 500 200 200 b3 else b3).
  assert (Hb4 : clock b4 = c3).
  { unfold b4, c3. destruct (Z.eqb_spec d 0) as [E|E].
    - rewrite play3_clock; unfold c2 in *; lia.
    - lia. }
  (* other devices *)
  destruct (readActivationPinByte_spec pin 400 1000 Lk fuel c3 b4)
    as (b5 & Hrun3 & Hb5); try (unfold c2 in *; lia); auto.
  { intros t Ht. fold e3 in Ht. rewrite Hsig by (unfold c2 in *; lia).
    rewrite (tapped_from_quiet_after 1000 Ld c2 t Hday) by (fold e2; lia).
    unfold pressed. cbn [fst snd].
    destruct (Z.ltb_spec t e0); [unfold c2 in *; lia|].
    rewrite andb_false_r. reflexivity. }
  rewrite Hrun3. fold k. fold e3 in Hb5.
  assert (Hdc : to_int (k + 1) = k + 1).
  { apply to_int_small. unfold is_int. lia. }
  cbn [device_count set_device_count]. rewrite Hdc.
  set (b6 := beeps (k + 1) b5).
  assert (Hb6 : clock b6 = c4).
  { unfold b6, c4. rewrite beeps_clock; unfold c2 in *; lia. }
  (* test mode *)
  rewrite (readActivationPinBoolean3_miss pin 350 300 1000 b6);
    try (unfold c2 in *; lia).
  2:{ intros t Ht. rewrite Hsig by (unfold c2 in *; lia).
      rewrite (tapped_from_quiet_after 1000 Ld c2 t Hday) by (fold e2; lia).
      rewrite (tapped_from_quiet_after 1000 Lk c3 t Hoth) by (fold e3; lia).
      unfold pressed. cbn [fst snd].
      destruct (Z.ltb_spec t e0); [unfold c2 in *; lia|].
      rewrite andb_false_r. reflexivity. }
  eexists. split; [reflexivity|].
  unfold configure, s0, power_on. cbn [negb]. sketch_fields.
  rewrite !(to_int_small (_ * (k + 1))) by (unfold is_int; lia).
  rewrite (to_long_small (DAY * d)) by (unfold is_long, DAY; lia).
  rewrite to_long_small by (unfold is_long, DAY; lia).
  unfold DAY. repeat split; lia.
Qed.

End ConfigurationFacts.

Lemma tap_train_length (n : nat) : forall a, length (tap_train n a) = n.
Proof. induction n as [|n IH]; intros a; cbn; [|rewrite IH]; reflexivity. Qed.

Lemma tap_train_spaced (n : nat) : forall prev a,
  prev + 300 <= a < prev + 1000 -> spaced 1000 prev (tap_train n a).
Proof.
  induction n as [|n IH]; intros prev a H; cbn [tap_train spaced].
  - exact I.
  - repeat split; try lia. apply IH. lia.
Qed.

Lemma tap_train_tapped_from (n : nat) (c a : Z) :
  c <= a < c + 1000 -> tapped_from 1000 c (tap_train n a).
Proof.
  destruct n as [|n]; intros H; cbn [tap_train tapped_from].
  - exact I.
  - repeat split; try lia. apply tap_train_spaced. lia.
Qed.

Lemma tap_train_listen_end (n : nat) : forall c a,
  listen_end 1000 c (tap_train (S n) a) = a + 400 * Z.of_nat n + 1300.
Proof.
  induction n as [|n IH]; intros c a.
  - cbn [tap_train listen_end]. unfold release_seen, release_waits.
    destruct (Z.leb_spec (a + 50) (a + 200)); lia.
  - change (tap_train (S (S n)) a)
      with ((a, a + 50) :: tap_train (S n) (a + 400)).
    cbn [listen_end]. rewrite IH. lia.
Qed.

(** ** Tap counting (claim C6) *)

(** C6, as the sketch has it: on every sequence of [n] well-timed taps (each
    one released, the next one starting after the settle time and before a
    full timeout has passed), given enough fuel the tap counter returns, and
    what it returns is [n] modulo 256, its result being a [byte]: exactly [n]
    for up to 255 taps, and 0 when no tap comes before the first timeout. *)
Theorem readActivationPinByte_counts
  (pin : Z -> bool) (period timeout : Z) (taps : list (Z * Z)) (b : Board) :
  0 <= timeout ->
  0 <= clock b ->
  tapped_from timeout (clock b) taps ->
  follows pin taps (clock b) (listen_end timeout (clock b) taps) ->
  listen_end timeout (clock b) taps < 2 ^ 32 ->
  (exists fuel0, forall fuel, (fuel0 <= fuel)%nat ->
     exists b',
       readActivationPinByte pin fuel period timeout b
       = Some (Z.of_nat (length taps) mod 256, b')) /\
  ((length taps <= 255)%nat ->
     Z.of_nat (length taps) mod 256 = Z.of_nat (length taps)) /\
  (taps = [] -> Z.of_nat (length taps) mod 256 = 0).
Proof.
  intros Hto Hc Htap Hpin Hlt. split; [|split].
  - exists (S (Z.to_nat (listen_end timeout (clock b) taps))).
    intros fuel Hfuel.
    destruct (readActivationPinByte_spec pin period timeout taps fuel
                (clock b) b) as (b' & Hrun & _); auto; try lia.
    exists b'. exact Hrun.
  - intros Hn. apply Z.mod_small. lia.
  - intros ->. reflexivity.
Qed.

Lemma readActivationPinByte_counts_witness :
  (exists fuel0, forall fuel, (fuel0 <= fuel)%nat ->
     exists b',
       readActivationPinByte (tap_signal (tap_train 2 10)) fuel 400 1000
         (mkBoard 0 [])
       = Some (Z.of_nat (length (tap_train 2 10)) mod 256, b')) /\
  ((length (tap_train 2 10) <= 255)%nat ->
     Z.of_nat (length (tap_train 2 10)) mod 256
     = Z.of_nat (length (tap_train 2 10))) /\
  (tap_train 2 10 = [] -> Z.of_nat (length (tap_train 2 10)) mod 256 = 0).
Proof.
  apply (readActivationPinByte_counts (tap_signal (tap_train 2 10)) 400 1000
           (tap_train 2 10) (mkBoard 0 [])).
  - lia.
  - simpl. lia.
  - simpl. lia.
  - intros t _. reflexivity.
  - vm_compute. reflexivity.
Defined.

(** C6 as stated fails at 256 taps: the train is well timed, the counter
    returns, and it returns 0; no run of the counter returns 256. *)
Lemma readActivationPinByte_256_taps :
  let taps := tap_train 256 0 in
  let pin := tap_signal taps in
  length taps = 256%nat /\
  tapped_from 1000 0 taps /\
  (exists fuel b',
     readActivationPinByte pin fuel 400 1000 (mkBoard 0 []) = Some (0, b')) /\
  (forall fuel b',
     readActivationPinByte pin fuel 400 1000 (mkBoard 0 [])
     <> Some (Z.of_nat (length taps), b')).
Proof.
  intros taps pin.
  assert (Hlen : length taps = 256%nat) by apply tap_train_length.
  assert (Htap : tapped_from 1000 0 taps)
    by (apply tap_train_tapped_from; lia).
  assert (Hend : listen_end 1000 0 taps = 103300)
    by (unfold taps; rewrite tap_train_listen_end; reflexivity).
  assert (Hpin : follows pin taps 0 (listen_end 1000 0 taps))
    by (intros t _; reflexivity).
  split; [exact Hlen|]. split; [exact Htap|]. split.
  - destruct (readActivationPinByte_spec pin 400 1000 taps
                (Z.to_nat 103301) 0 (mkBoard 0 []))
      as (b' & Hrun & _); auto; try (rewrite ?Hend; lia).
    rewrite Hlen in Hrun. exists (Z.to_nat 103301), b'. exact Hrun.
  - intros fuel b' Hrun. unfold readActivationPinByte in Hrun.
    destruct (count_taps pin fuel fuel 400 1000 0 (mkBoard 0 []))
      as [[count b'']|]; [|discriminate].
    assert (Hcount : to_byte count = Z.of_nat (length taps)) by congruence.
    pose proof (to_byte_range count). rewrite Hlen in Hcount. lia.
Qed.

(** ** Configuration (claim C1) *)

(** C1, as the sketch has it: an activated run in which the operator taps
    [d] times for the days and [k] times for the other devices, with at most
    255 taps in each stage, and does not enable test mode, ends (given enough
    fuel) with [device_count] = k+1, interval bounds (37 (k+1), 60 (k+1)) and
    initial delay [DAY + d * DAY]. *)
Theorem readConfiguration_scales (pin : Z -> bool) (R : Ritual) :
  well_timed R ->
  follows pin (ritual_taps R) ON_MICROS (test_start R + 1000) ->
  test_start R + 1000 + ON_MICROS < 2 ^ 32 ->
  (length (day_taps R) <= 255)%nat ->
  (length (other_taps R) <= 255)%nat ->
  let d := Z.of_nat (length (day_taps R)) in
  let k := Z.of_nat (length (other_taps R)) in
  exists fuel0, forall fuel, (fuel0 <= fuel)%nat ->
    exists s,
      readConfiguration pin fuel power_on = Some s /\
      device_count s = k + 1 /\
      MIN_COUNTER_TRIGGER s = MIN_COUNTER_TRIGGER power_on * (k + 1) /\
      MAX_COUNTER_TRIGGER s = MAX_COUNTER_TRIGGER power_on * (k + 1) /\
      INITIAL_COUNTER_TRIGGER s = INITIAL_COUNTER_TRIGGER power_on + d * DAY.
Proof.
  intros Hwt Hpin Hwrap Hd Hk d k.
  exists (S (Z.to_nat (test_start R))). intros fuel Hfuel.
  destruct (readConfiguration_activated pin R fuel Hwt Hpin Hwrap)
    as (s & Hrun & Hdc & Hmin & Hmax & Hini & _); [lia|].
  assert (Ed : days_heard R = d)
    by (unfold days_heard; apply Z.mod_small; lia).
  assert (Ek : others_heard R = k)
    by (unfold others_heard; apply Z.mod_small; lia).
  rewrite Ed in Hini. rewrite Ek in Hdc, Hmin, Hmax.
  exists s. repeat split; auto. rewrite Hini. lia.
Qed.

Lemma ritual_3_days_2_others_well_timed : well_timed ritual_3_days_2_others.
Proof.
  unfold well_timed, ritual_3_days_2_others, others_start, days_start,
    days_heard, ON_MICROS.
  cbn [act day_taps other_taps fst snd].
  rewrite tap_train_listen_end. rewrite tap_train_length.
  change (Z.of_nat 3 mod 256) with 3.
  split; [lia|]. split; [lia|].
  split; apply tap_train_tapped_from; lia.
Qed.

Lemma readConfiguration_scales_witness :
  exists fuel0, forall fuel, (fuel0 <= fuel)%nat ->
    exists s,
      readConfiguration (tap_signal (ritual_taps ritual_3_days_2_others))
        fuel power_on = Some s /\
      device_count s = 2 + 1 /\
      MIN_COUNTER_TRIGGER s = 37 * (2 + 1) /\
      MAX_COUNTER_TRIGGER s = 60 * (2 + 1) /\
      INITIAL_COUNTER_TRIGGER s = 1 * DAY + 3 * DAY.
Proof.
  apply (readConfiguration_scales
           (tap_signal (ritual_taps ritual_3_days_2_others))
           ritual_3_days_2_others).
  - exact ritual_3_days_2_others_well_timed.
  - intros t _. reflexivity.
  - vm_compute. reflexivity.
  - simpl. lia.
  - simpl. lia.
Defined.

Lemma ritual_256_days_well_timed : well_timed ritual_256_days.
Proof.
  unfold well_timed, ritual_256_days, others_start, days_start,
    days_heard, ON_MICROS.
  cbn [act day_taps other_taps fst snd tapped_from].
  split; [lia|]. split; [lia|]. split; [|exact I].
  apply tap_train_tapped_from. lia.
Qed.

(** C1 as stated fails when the days are tapped 256 times: the run is well
    timed and ends, and the initial delay is one day, not 257 days. *)
Lemma readConfiguration_256_days :
  let R := ritual_256_days in
  let d := Z.of_nat (length (day_taps R)) in
  d = 256 /\
  well_timed R /\
  exists fuel s,
    readConfiguration (tap_signal (ritual_taps R)) fuel power_on = Some s /\
    INITIAL_COUNTER_TRIGGER s = INITIAL_COUNTER_TRIGGER power_on /\
    INITIAL_COUNTER_TRIGGER s <> INITIAL_COUNTER_TRIGGER power_on + d * DAY.
Proof.
  intros R d.
  assert (Hd : d = 256).
  { unfold d, R, ritual_256_days. cbn [day_taps].
    rewrite tap_train_length. reflexivity. }
  assert (Hh : days_heard R = 0).
  { unfold days_heard. fold d. rewrite Hd. reflexivity. }
  assert (Hts : test_start R = 105800).
  { unfold test_start, others_start, others_heard. rewrite Hh.
    unfold R, ritual_256_days, days_start.
    cbn [act day_taps other_taps fst listen_end length].
    rewrite tap_train_listen_end. reflexivity. }
  split; [exact Hd|]. split; [exact ritual_256_days_well_timed|].
  destruct (readConfiguration_activated (tap_signal (ritual_taps R)) R
              (Z.to_nat 105801) ritual_256_days_well_timed)
    as (s & Hrun & _ & _ & _ & Hini & _).
  - intros t _. reflexivity.
  - rewrite Hts. reflexivity.
  - rewrite Hts. lia.
  - rewrite Hh in Hini. exists (Z.to_nat 105801), s.
    split; [exact Hrun|]. rewrite Hd, Hini. unfold DAY. cbn. lia.
Qed.

(** The configuration of a device that was not activated. *)
Lemma readConfiguration_not_activated (pin : Z -> bool) (fuel : nat) :
  (forall t, ON_MICROS <= t < ON_MICROS + 5000 -> pin t = false) ->
  readConfiguration pin fuel power_on = Some unactivated.
Proof.
  unfold ON_MICROS. intros Hlow.
  unfold readConfiguration, readActivationPinBoolean2, unactivated, ON_MICROS.
  set (s0 := on_board (play2 450 300) power_on).
  assert (Hb0 : clock (board s0) = 300).
  { unfold s0, on_board. cbn [board set_board power_on].
    rewrite play2_clock; cbn [clock]; lia. }
  rewrite (readActivationPinBoolean3_miss pin 400 300 5000 (board s0));
    try lia.
  - rewrite Hb0. reflexivity.
  - intros t Ht. apply Hlow. lia.
Qed.

(** ** The scheduler *)

Section SchedulerFacts.

Variable entropy : Z -> nat -> Z.
Variable beyond : Z -> Z.

Lemma random2_globals (lo hi : Z) (s : Sketch) :
  globals (snd (random2 entropy lo hi s)) = globals s.
Proof.
  unfold random2, random1, libc_random.
  destruct (lo >=? hi); [reflexivity|].
  destruct (to_long (hi - lo) =? 0); reflexivity.
Qed.

Lemma random2_strays (lo hi : Z) (s : Sketch) :
  strays (snd (random2 entropy lo hi s)) = strays s.
Proof.
  unfold random2, random1, libc_random.
  destruct (lo >=? hi); [reflexivity|].
  destruct (to_long (hi - lo) =? 0); reflexivity.
Qed.

(** A draw between two [int]s in order lies between them, the upper one
    excluded when they differ. *)
Lemma random2_range (lo hi : Z) (s : Sketch) :
  is_int lo -> is_int hi -> lo <= hi ->
  lo <= fst (random2 entropy lo hi s) <= hi /\
  (lo < hi -> fst (random2 entropy lo hi s) < hi).
Proof.
  unfold is_int. intros Hlo Hhi Hle.
  unfold random2, random1, libc_random.
  destruct (Z.geb_spec lo hi) as [Hge|Hlt]; cbn [fst]; [lia|].
  rewrite (to_long_small (hi - lo)) by (unfold is_long; lia).
  destruct (Z.eqb_spec (hi - lo) 0) as [E|_]; [lia|]. cbn [fst].
  pose proof (Z.mod_pos_bound (entropy (seed s) (draws s)) (2 ^ 31)
                ltac:(lia)) as Hraw.
  set (raw := entropy (seed s) (draws s) mod 2 ^ 31) in *.
  pose proof (Z.rem_bound_pos raw (hi - lo) ltac:(lia) ltac:(lia)) as Hrem.
  rewrite to_long_small by (unfold is_long; lia).
  lia.
Qed.

Lemma random2_long (lo hi : Z) (s : Sketch) :
  is_long lo -> is_long (fst (random2 entropy lo hi s)).
Proof.
  intros Hlo. unfold random2, random1.
  destruct (lo >=? hi); [exact Hlo|].
  destruct (to_long (hi - lo) =? 0); cbn [fst]; apply to_long_range.
Qed.

Lemma fill_globals (n : nat) (lo hi : Z) : forall s,
  globals (snd (fill entropy n lo hi s)) = globals s.
Proof.
  induction n as [|n IH]; intros s; [reflexivity|].
  cbn [fill].
  destruct (random2 entropy lo hi s) as [r s1] eqn:E1.
  destruct (fill entropy n lo hi s1) as [rest s2] eqn:E2. cbn [snd].
  change s2 with (snd (rest, s2)). rewrite <- E2, IH.
  change s1 with (snd (r, s1)). rewrite <- E1. apply random2_globals.
Qed.

Lemma play_at_globals (periods : list Z) (x : Z) (s : Sketch) :
  globals (play_at beyond periods x s) = globals s.
Proof.
  unfold play_at, load.
  destruct ((0 <=? x) && (x <? Z.of_nat (length periods))); reflexivity.
Qed.

Lemma play_up_globals (n : nat) (periods : list Z) : forall x s,
  globals (play_up beyond n x periods s) = globals s.
Proof.
  induction n as [|n IH]; intros x s; [reflexivity|].
  cbn [play_up]. destruct (x <? 100); [|reflexivity].
  rewrite IH. apply play_at_globals.
Qed.

Lemma play_down_globals (n : nat) (periods : list Z) : forall x s,
  globals (play_down beyond n x periods s) = globals s.
Proof.
  induction n as [|n IH]; intros x s; [reflexivity|].
  cbn [play_down]. destruct (x >=? 0); [|reflexivity].
  rewrite IH. apply play_at_globals.
Qed.

Lemma annoy3_globals (lo hi : Z) (s : Sketch) :
  globals (annoy3 entropy beyond lo hi s) = globals s.
Proof.
  unfold annoy3.
  destruct (fill entropy 100 lo hi s) as [periods s1] eqn:E.
  rewrite play_down_globals, play_up_globals.
  change s1 with (snd (periods, s1)). rewrite <- E. apply fill_globals.
Qed.

Lemma annoy_globals (s : Sketch) :
  globals (annoy entropy beyond s) = globals s.
Proof.
  unfold annoy.
  destruct (random2 entropy 0 6 s) as [annoyance s1] eqn:E.
  assert (H1 : globals s1 = globals s).
  { change s1 with (snd (annoyance, s1)). rewrite <- E.
    apply random2_globals. }
  rewrite <- H1.
  destruct (to_int annoyance) as [|p|p]; try reflexivity.
  do 3 (try destruct p as [p|p|]); try reflexivity; apply annoy3_globals.
Qed.

End SchedulerFacts.

(** *** Decay *)

Lemma shrink_is_int (m dc : Z) :
  is_int m -> is_int dc -> 2 <= dc ->
  to_int (to_int (Z.quot m dc) * to_int (dc - 1)) = Z.quot m dc * (dc - 1) /\
  is_int (Z.quot m dc * (dc - 1)).
Proof.
  unfold is_int. intros Hm Hdc H2.
  change (2 ^ 15) with 32768 in *.
  pose proof (Z.quot_rem' m dc) as E.
  assert (Hq : - 32768 <= Z.quot m dc * (dc - 1) < 32768 /\
               - 32768 <= Z.quot m dc < 32768).
  { destruct (Z_le_gt_dec 0 m) as [Hpos|Hneg].
    - pose proof (Z.rem_bound_pos m dc ltac:(lia) ltac:(lia)).
      pose proof (Z.quot_pos m dc ltac:(lia) ltac:(lia)). nia.
    - pose proof (Z.rem_bound_pos_neg m dc ltac:(lia) ltac:(lia)).
      assert (Z.quot m dc <= 0) by nia. nia. }
  rewrite (to_int_small (Z.quot m dc))
    by (unfold is_int; change (2 ^ 15) with 32768; lia).
  rewrite (to_int_small (dc - 1))
    by (unfold is_int; change (2 ^ 15) with 32768; lia).
  rewrite to_int_small by (unfold is_int; change (2 ^ 15) with 32768; lia).
  split; [reflexivity|lia].
Qed.

Lemma shrink_fields (s : Sketch) :
  MIN_COUNTER_TRIGGER (shrink s)
  = to_int (to_int (Z.quot (MIN_COUNTER_TRIGGER s) (device_count s))
            * to_int (device_count s - 1)) /\
  MAX_COUNTER_TRIGGER (shrink s)
  = to_int (to_int (Z.quot (MAX_COUNTER_TRIGGER s) (device_count s))
            * to_int (device_count s - 1)) /\
  device_count (shrink s) = to_int (device_count s - 1) /\
  WATCHDOG_PARAM (shrink s) = WATCHDOG_PARAM s /\
  INITIAL_COUNTER_TRIGGER (shrink s) = INITIAL_COUNTER_TRIGGER s /\
  day_counter (shrink s) = day_counter s /\
  started (shrink s) = started s /\
  counter_trigger (shrink s) = counter_trigger s /\
  watchdog_counter (shrink s) = watchdog_counter s /\
  seed (shrink s) = seed s /\ draws (shrink s) = draws s.
Proof.
  unfold shrink. sketch_fields.
  destruct (WATCHDOG_PARAM s =? TEST_WATCHDOG_PARAM); sketch_fields;
    repeat split; reflexivity.
Qed.

(** What [decay] does to each global. *)
Lemma decay_fields (s : Sketch) :
  day_counter (decay s)
  = (if day_counter s >=? DAY * 3 then 0 else day_counter s) /\
  WATCHDOG_PARAM (decay s) = WATCHDOG_PARAM s /\
  INITIAL_COUNTER_TRIGGER (decay s) = INITIAL_COUNTER_TRIGGER s /\
  started (decay s) = started s /\
  counter_trigger (decay s) = counter_trigger s /\
  watchdog_counter (decay s) = watchdog_counter s /\
  seed (decay s) = seed s /\ draws (decay s) = draws s.
Proof.
  unfold decay. destruct (day_counter s >=? DAY * 3).
  - sketch_fields. destruct (device_count s >? 1).
    + pose proof (shrink_fields (set_day_counter 0 s)) as H.
      sketch_fields. tauto.
    + sketch_fields. tauto.
  - tauto.
Qed.

(** The bounds and the device count after [decay]. *)
Lemma decay_bounds (s : Sketch) :
  (MIN_COUNTER_TRIGGER (decay s), MAX_COUNTER_TRIGGER (decay s),
   device_count (decay s))
  = if (day_counter s >=? DAY * 3) && (device_count s >? 1)
    then (to_int (to_int (Z.quot (MIN_COUNTER_TRIGGER s) (device_count s))
                  * to_int (device_count s - 1)),
          to_int (to_int (Z.quot (MAX_COUNTER_TRIGGER s) (device_count s))
                  * to_int (device_count s - 1)),
          to_int (device_count s - 1))
    else (MIN_COUNTER_TRIGGER s, MAX_COUNTER_TRIGGER s, device_count s).
Proof.
  unfold decay. destruct (day_counter s >=? DAY * 3); [|reflexivity].
  sketch_fields. destruct (device_count s >? 1); [|reflexivity].
  pose proof (shrink_fields (set_day_counter 0 s)) as (H1 & H2 & H3 & _).
  sketch_fields. rewrite H1, H2, H3. reflexivity.
Qed.

Lemma decay_invariant (s : Sketch) :
  typed s -> bounds_ok s -> typed (decay s) /\ bounds_ok (decay s).
Proof.
  unfold typed, bounds_ok.
  intros (T1 & T2 & T3 & T4 & T5 & T6 & T7 & T8) (B1 & B2).
  pose proof (decay_fields s) as (D1 & D2 & D3 & D4 & D5 & D6 & _).
  pose proof (decay_bounds s) as DB.
  rewrite D1, D2, D3, D5, D6.
  assert (T6' : is_long (if day_counter s >=? DAY * 3 then 0
                         else day_counter s)).
  { destruct (day_counter s >=? DAY * 3); [unfold is_long; lia|exact T6]. }
  destruct ((day_counter s >=? DAY * 3) && (device_count s >? 1)) eqn:C.
  - apply andb_prop in C. destruct C as [_ C].
    apply Z.gtb_lt in C.
    destruct (shrink_is_int _ _ T1 T5 ltac:(lia)) as [E1 R1].
    destruct (shrink_is_int _ _ T2 T5 ltac:(lia)) as [E2 R2].
    rewrite E1, E2 in DB.
    assert (E3 : to_int (device_count s - 1) = device_count s - 1).
    { apply to_int_small. unfold is_int in *. lia. }
    rewrite E3 in DB. injection DB as -> -> ->.
    assert (Hmono :
      Z.quot (MIN_COUNTER_TRIGGER s) (device_count s) * (device_count s - 1)
      <= Z.quot (MAX_COUNTER_TRIGGER s) (device_count s)
         * (device_count s - 1)).
    { apply Z.mul_le_mono_nonneg_r; [lia|]. apply Z.quot_le_mono; lia. }
    unfold is_int, is_long in *. repeat split; lia.
  - injection DB as -> -> ->.
    unfold is_int, is_long in *. repeat split; lia.
Qed.

(** *** Counting the day and serving the interrupt *)

Lemma count_day_invariant (s : Sketch) :
  typed s -> bounds_ok s -> typed (count_day s) /\ bounds_ok (count_day s).
Proof.
  unfold typed, bounds_ok, count_day. intros T B.
  destruct (started s); [|tauto]. sketch_fields.
  pose proof (to_long_range (day_counter s + 1)). tauto.
Qed.

Lemma WDT_vect_invariant (s : Sketch) :
  typed s -> bounds_ok s -> typed (WDT_vect s) /\ bounds_ok (WDT_vect s).
Proof.
  unfold typed, bounds_ok, WDT_vect. intros T B. sketch_fields.
  pose proof (to_long_range (watchdog_counter s + 1)). tauto.
Qed.

(** *** Triggering *)

Section TriggerFacts.

Variable entropy : Z -> nat -> Z.
Variable beyond : Z -> Z.

Lemma random2_fst_rng (lo hi : Z) (s s' : Sketch) :
  seed s = seed s' -> draws s = draws s' ->
  fst (random2 entropy lo hi s) = fst (random2 entropy lo hi s').
Proof.
  intros Hs Hd. unfold random2, random1, libc_random.
  destruct (lo >=? hi); [reflexivity|].
  destruct (to_long (hi - lo) =? 0); [reflexivity|].
  cbn [fst]. rewrite Hs, Hd. reflexivity.
Qed.

(** The threshold has been reached: the counter is cleared, the threshold
    is drawn afresh between the bounds, the device has started. *)
Lemma trigger_fire (s : Sketch) :
  counter_trigger s <= watchdog_counter s ->
  globals (trigger entropy beyond s)
  = (MIN_COUNTER_TRIGGER s, MAX_COUNTER_TRIGGER s, WATCHDOG_PARAM s,
     INITIAL_COUNTER_TRIGGER s, device_count s, day_counter s, true,
     fst (random2 entropy (MIN_COUNTER_TRIGGER s) (MAX_COUNTER_TRIGGER s) s),
     0, WDTCR s).
Proof.
  intros Hge. unfold trigger.
  destruct (Z.geb_spec (watchdog_counter s) (counter_trigger s)); [|lia].
  rewrite annoy_globals. unfold newTriggerCounter. sketch_fields.
  rewrite (random2_fst_rng _ _ s (set_watchdog_counter 0 s))
    by reflexivity.
  pose proof (random2_globals entropy (MIN_COUNTER_TRIGGER s)
                (MAX_COUNTER_TRIGGER s) (set_watchdog_counter 0 s)) as G.
  destruct (random2 entropy (MIN_COUNTER_TRIGGER s) (MAX_COUNTER_TRIGGER s)
              (set_watchdog_counter 0 s)) as [r s'].
  cbn [fst snd] in *. unfold globals in *. sketch_fields.
  congruence.
Qed.

(** The threshold has not been reached: no global changes. *)
Lemma trigger_idle (s : Sketch) :
  watchdog_counter s < counter_trigger s ->
  globals (trigger entropy beyond s) = globals s.
Proof.
  intros Hlt. unfold trigger.
  destruct (Z.geb_spec (watchdog_counter s) (counter_trigger s)); [lia|].
  destruct (WATCHDOG_PARAM s =? TEST_WATCHDOG_PARAM); reflexivity.
Qed.

Lemma trigger_invariant (s : Sketch) :
  typed s -> bounds_ok s ->
  typed (trigger entropy beyond s) /\ bounds_ok (trigger entropy beyond s).
Proof.
  intros T B.
  destruct (Z_le_gt_dec (counter_trigger s) (watchdog_counter s)) as [H|H].
  - pose proof (trigger_fire s H) as G.
    unfold typed, bounds_ok in *. unfold globals in G.
    injection G as -> -> -> -> -> -> _ -> -> _.
    destruct T as (T1 & T2 & T3 & T4 & T5 & T6 & T7 & T8).
    pose proof (random2_long entropy (MIN_COUNTER_TRIGGER s)
                  (MAX_COUNTER_TRIGGER s) s) as R.
    assert (is_long (MIN_COUNTER_TRIGGER s)) by (unfold is_int, is_long in *; lia).
    assert (is_long 0) by (unfold is_long; lia).
    tauto.
  - pose proof (trigger_idle s ltac:(lia)) as G.
    unfold typed, bounds_ok in *. unfold globals in G.
    injection G as -> -> -> -> -> -> _ -> -> _. tauto.
Qed.

Lemma loop_invariant (s : Sketch) :
  typed s -> bounds_ok s ->
  typed (loop entropy beyond s) /\ bounds_ok (loop entropy beyond s).
Proof.
  intros T B. unfold loop, sleep_mode.
  destruct (WDT_vect_invariant s T B) as [T1 B1].
  destruct (count_day_invariant _ T1 B1) as [T2 B2].
  destruct (decay_invariant _ T2 B2) as [T3 B3].
  apply trigger_invariant; assumption.
Qed.

(** The threshold and the watchdog counter as [trigger] finds them. *)
Lemma before_trigger (s : Sketch) :
  counter_trigger (decay (count_day (sleep_mode s))) = counter_trigger s /\
  watchdog_counter (decay (count_day (sleep_mode s)))
  = watchdog_counter (sleep_mode s).
Proof.
  pose proof (decay_fields (count_day (sleep_mode s)))
    as (_ & _ & _ & _ & D5 & D6 & _).
  rewrite D5, D6. unfold count_day, sleep_mode, WDT_vect. sketch_fields.
  destruct (started s); split; reflexivity.
Qed.

End TriggerFacts.

(** *** The invariant in every reachable state *)

Lemma readActivationPinByte_range (pin : Z -> bool) (fuel : nat)
  (period timeout n : Z) (b b' : Board) :
  readActivationPinByte pin fuel period timeout b = Some (n, b') ->
  0 <= n < 256.
Proof.
  unfold readActivationPinByte.
  destruct (count_taps pin fuel fuel period timeout 0 b) as [[count b'']|];
    [|discriminate].
  intros H. injection H as <- _. apply to_byte_range.
Qed.

Lemma configure_invariant (days others : Z) (testMode : bool) (b : Board)
  (f : Board -> Board) :
  0 <= days < 256 -> 0 <= others < 256 ->
  let s :=
    configure days others testMode
      (set_board b (set_device_count (to_int (others + 1))
                      (on_board f power_on))) in
  typed s /\ bounds_ok s.
Proof.
  intros Hd Ho s. subst s.
  assert (Hdc : to_int (others + 1) = others + 1)
    by (apply to_int_small; unfold is_int; lia).
  unfold typed, bounds_ok, configure, power_on.
  destruct testMode; cbn [negb]; sketch_fields; rewrite Hdc;
    unfold TEST_MIN_COUNTER_TRIGGER, TEST_MAX_COUNTER_TRIGGER,
      TEST_INITIAL_COUNTER_TRIGGER, TEST_WATCHDOG_PARAM;
    rewrite !(to_int_small (_ * (others + 1))) by (unfold is_int; lia);
    pose proof (to_long_range (3 + to_long (DAY * days)));
    pose proof (to_long_range (1 * DAY + to_long (DAY * days)));
    unfold is_int, is_long in *; repeat split; lia.
Qed.

Lemma configured_invariant (pin : Z -> bool) (s : Sketch) :
  configured pin s -> typed s /\ bounds_ok s.
Proof.
  intros [fuel H]. unfold readConfiguration in H.
  destruct (readActivationPinBoolean2 pin 400 5000
              (board (on_board (play2 450 ON_MICROS) power_on)))
    as [active b1].
  destruct active.
  - destruct (readActivationPinByte pin fuel 400 1000 b1)
      as [[days b2]|] eqn:E2; [|discriminate].
    destruct (readActivationPinByte pin fuel 400 1000
                (if days =? 0 then play3 500 200 200 (beeps days b2)
                 else beeps days b2))
      as [[others b5]|] eqn:E3; [|discriminate].
    destruct (readActivationPinBoolean2 pin 350 1000 _) as [testMode b7].
    injection H as <-.
    apply configure_invariant.
    + exact (readActivationPinByte_range _ _ _ _ _ _ _ E2).
    + exact (readActivationPinByte_range _ _ _ _ _ _ _ E3).
  - injection H as <-.
    unfold typed, bounds_ok, super_annoying, power_on. sketch_fields.
    unfold is_int, is_long, TEST_WATCHDOG_PARAM, DAY. repeat split; lia.
Qed.

Section RunningFacts.

Variable entropy : Z -> nat -> Z.
Variable beyond : Z -> Z.
Variable pin : Z -> bool.

(** What [arm] leaves in the globals: only the threshold changes, to a
    draw between the bounds plus the initial delay. *)
Lemma arm_fields (s : Sketch) :
  MIN_COUNTER_TRIGGER (arm entropy s) = MIN_COUNTER_TRIGGER s /\
  MAX_COUNTER_TRIGGER (arm entropy s) = MAX_COUNTER_TRIGGER s /\
  WATCHDOG_PARAM (arm entropy s) = WATCHDOG_PARAM s /\
  INITIAL_COUNTER_TRIGGER (arm entropy s) = INITIAL_COUNTER_TRIGGER s /\
  device_count (arm entropy s) = device_count s /\
  day_counter (arm entropy s) = day_counter s /\
  started (arm entropy s) = started s /\
  watchdog_counter (arm entropy s) = watchdog_counter s /\
  counter_trigger (arm entropy s)
  = to_long
      (fst (random2 entropy (MIN_COUNTER_TRIGGER s) (MAX_COUNTER_TRIGGER s)
              (randomSeed (millis (board s)) s))
       + INITIAL_COUNTER_TRIGGER s).
Proof.
  unfold arm, newTriggerCounter, setup_watchdog.
  set (s2 := randomSeed (millis (board s)) s).
  assert (G2 : globals s2 = globals s).
  { unfold s2, randomSeed. destruct (millis (board s) =? 0); reflexivity. }
  unfold globals in G2. injection G2 as G1 G2 G3 G4 G5 G6 G7 G8 G9 G10.
  rewrite G1, G2.
  pose proof (random2_globals entropy (MIN_COUNTER_TRIGGER s)
                (MAX_COUNTER_TRIGGER s) s2) as G.
  destruct (random2 entropy (MIN_COUNTER_TRIGGER s) (MAX_COUNTER_TRIGGER s)
              s2) as [r s'].
  cbn [fst snd] in *. unfold globals in G. sketch_fields.
  injection G as -> -> -> -> -> -> -> _ -> _.
  repeat split; congruence.
Qed.

Lemma arm_invariant (s : Sketch) :
  typed s -> bounds_ok s ->
  typed (arm entropy s) /\ bounds_ok (arm entropy s).
Proof.
  unfold typed, bounds_ok. intros T B.
  pose proof (arm_fields s)
    as (A1 & A2 & A3 & A4 & A5 & A6 & A7 & A8 & A9).
  rewrite A1, A2, A3, A4, A5, A6, A8, A9.
  pose proof (to_long_range
    (fst (random2 entropy (MIN_COUNTER_TRIGGER s) (MAX_COUNTER_TRIGGER s)
            (randomSeed (millis (board s)) s))
     + INITIAL_COUNTER_TRIGGER s)).
  tauto.
Qed.

Lemma running_invariant (s : Sketch) :
  running entropy beyond pin s -> typed s /\ bounds_ok s.
Proof.
  induction 1 as [fuel s Hsetup|s _ [T B]|s _ [T B]].
  - unfold setup in Hsetup.
    destruct (readConfiguration pin fuel power_on) as [c|] eqn:E;
      [|discriminate].
    injection Hsetup as <-.
    destruct (configured_invariant pin c) as [T B]; [exists fuel; exact E|].
    apply arm_invariant; assumption.
  - apply loop_invariant; assumption.
  - apply WDT_vect_invariant; assumption.
Qed.

End RunningFacts.

(** ** Super-annoying mode (claim C2) *)

Lemma setup_not_activated (entropy : Z -> nat -> Z) (pin : Z -> bool)
  (fuel : nat) :
  (forall t, ON_MICROS <= t < ON_MICROS + 5000 -> pin t = false) ->
  setup entropy pin fuel power_on = Some (arm entropy unactivated).
Proof.
  intros Hlow. unfold setup.
  rewrite readConfiguration_not_activated by exact Hlow. reflexivity.
Qed.

Lemma unactivated_fields :
  MIN_COUNTER_TRIGGER unactivated = 0 /\
  MAX_COUNTER_TRIGGER unactivated = 0 /\
  INITIAL_COUNTER_TRIGGER unactivated = 0 /\
  WATCHDOG_PARAM unactivated = TEST_WATCHDOG_PARAM /\
  device_count unactivated = 1.
Proof. repeat split; reflexivity. Qed.

Lemma arm_watchdog (entropy : Z -> nat -> Z) (s : Sketch) :
  WATCHDOG_PARAM s = TEST_WATCHDOG_PARAM ->
  WDTCR (arm entropy s) = 87.
Proof.
  intros H. unfold arm, setup_watchdog. sketch_fields.
  unfold newTriggerCounter.
  pose proof (random2_globals entropy
                (MIN_COUNTER_TRIGGER (randomSeed (millis (board s)) s))
                (MAX_COUNTER_TRIGGER (randomSeed (millis (board s)) s))
                (randomSeed (millis (board s)) s)) as G.
  destruct (random2 entropy _ _ (randomSeed (millis (board s)) s))
    as [r s'].
  cbn [snd] in G. sketch_fields.
  assert (G' : WATCHDOG_PARAM s' = WATCHDOG_PARAM s).
  { unfold globals in G. injection G as _ _ G3 _ _ _ _ _ _ _.
    rewrite G3. unfold randomSeed.
    destruct (millis (board s) =? 0); reflexivity. }
  rewrite G', H. reflexivity.
Qed.

(** C2, as the sketch has it: when the five seconds that follow the
    power-on beep pass without a tap, configuration ends with both interval
    bounds and the initial delay at zero and with the watchdog code of test
    mode, 7; [setup] programs the watchdog with that code, a wake every two
    seconds, which is shorter than the eight seconds of production. *)
Theorem super_annoying_mode (entropy : Z -> nat -> Z) (pin : Z -> bool)
  (fuel : nat) :
  (forall t, ON_MICROS <= t < ON_MICROS + 5000 -> pin t = false) ->
  exists c s,
    readConfiguration pin fuel power_on = Some c /\
    MIN_COUNTER_TRIGGER c = 0 /\
    MAX_COUNTER_TRIGGER c = 0 /\
    INITIAL_COUNTER_TRIGGER c = 0 /\
    WATCHDOG_PARAM c = TEST_WATCHDOG_PARAM /\
    setup entropy pin fuel power_on = Some s /\
    prescaler (WDTCR s) = TEST_WATCHDOG_PARAM /\
    wake_period (prescaler (WDTCR s)) = 2000 /\
    wake_period (prescaler (WDTCR s))
    < wake_period (WATCHDOG_PARAM power_on).
Proof.
  intros Hlow. exists unactivated, (arm entropy unactivated).
  destruct unactivated_fields as (F1 & F2 & F3 & F4 & _).
  rewrite (arm_watchdog entropy unactivated F4).
  split; [apply readConfiguration_not_activated; exact Hlow|].
  split; [exact F1|]. split; [exact F2|]. split; [exact F3|].
  split; [exact F4|].
  split; [apply setup_not_activated; exact Hlow|].
  repeat split.
Qed.

Lemma super_annoying_mode_witness :
  exists c s,
    readConfiguration untouched 0 power_on = Some c /\
    MIN_COUNTER_TRIGGER c = 0 /\
    MAX_COUNTER_TRIGGER c = 0 /\
    INITIAL_COUNTER_TRIGGER c = 0 /\
    WATCHDOG_PARAM c = TEST_WATCHDOG_PARAM /\
    setup no_entropy untouched 0 power_on = Some s /\
    prescaler (WDTCR s) = TEST_WATCHDOG_PARAM /\
    wake_period (prescaler (WDTCR s)) = 2000 /\
    wake_period (prescaler (WDTCR s))
    < wake_period (WATCHDOG_PARAM power_on).
Proof.
  apply (super_annoying_mode no_entropy untouched 0).
  intros t _. reflexivity.
Defined.

(** C2 as stated fails: the device that is never tapped is configured with
    watchdog code 7, and code 0 wakes it more often. *)
Lemma super_annoying_not_fastest :
  readConfiguration untouched 0 power_on = Some unactivated /\
  WATCHDOG_PARAM unactivated = 7 /\
  wake_period 0 < wake_period (WATCHDOG_PARAM unactivated) /\
  ~ fastest_wake_period (WATCHDOG_PARAM unactivated).
Proof.
  split; [apply readConfiguration_not_activated; intros t _; reflexivity|].
  split; [reflexivity|]. split; [reflexivity|].
  intros H. specialize (H 0 ltac:(lia)).
  change (wake_period (WATCHDOG_PARAM unactivated)) with 2000 in H.
  change (wake_period 0) with 16 in H. lia.
Qed.

(** ** The scheduler step (claims C3, C5, C10) *)

Lemma running_unactivated :
  running no_entropy no_stray untouched (arm no_entropy unactivated).
Proof.
  apply (run_setup no_entropy no_stray untouched 0).
  apply setup_not_activated. intros t _. reflexivity.
Qed.

(** C3: in every state of the running sketch, a pass of [loop] that wakes
    with the watchdog counter at or above the threshold leaves the counter
    at 0 and a threshold between the interval bounds as they are after that
    pass, both included. *)
Theorem loop_fires (entropy : Z -> nat -> Z) (beyond : Z -> Z)
  (pin : Z -> bool) (s : Sketch) :
  running entropy beyond pin s ->
  counter_trigger s <= watchdog_counter (sleep_mode s) ->
  watchdog_counter (loop entropy beyond s) = 0 /\
  MIN_COUNTER_TRIGGER (loop entropy beyond s)
  <= counter_trigger (loop entropy beyond s)
  <= MAX_COUNTER_TRIGGER (loop entropy beyond s).
Proof.
  intros Hrun Hreach.
  destruct (running_invariant entropy beyond pin s Hrun) as [T B].
  unfold loop. set (x := decay (count_day (sleep_mode s))).
  assert (Hx : typed x /\ bounds_ok x).
  { unfold x, sleep_mode.
    destruct (WDT_vect_invariant s T B) as [T1 B1].
    destruct (count_day_invariant _ T1 B1) as [T2 B2].
    apply decay_invariant; assumption. }
  destruct Hx as [(T1 & T2 & _) (B1 & _)].
  destruct (before_trigger s) as [E1 E2]. fold x in E1, E2.
  pose proof (trigger_fire entropy beyond x ltac:(lia)) as G.
  unfold globals in G. injection G as -> -> _ _ _ _ _ -> -> _.
  split; [reflexivity|].
  apply random2_range; assumption.
Qed.

Lemma loop_fires_witness :
  watchdog_counter (loop no_entropy no_stray (arm no_entropy unactivated))
  = 0 /\
  MIN_COUNTER_TRIGGER (loop no_entropy no_stray (arm no_entropy unactivated))
  <= counter_trigger (loop no_entropy no_stray (arm no_entropy unactivated))
  <= MAX_COUNTER_TRIGGER
       (loop no_entropy no_stray (arm no_entropy unactivated)).
Proof.
  apply (loop_fires no_entropy no_stray untouched).
  - exact running_unactivated.
  - vm_compute. discriminate.
Defined.

(** C5: the interval bounds are in order and the device count is at least
    one in the state left by configuration, whichever branch it took, and in
    every state of the running sketch; from such a state the next pass of
    [loop] keeps them so, and so does a decay step. *)
Theorem bounds_invariant (entropy : Z -> nat -> Z) (beyond : Z -> Z)
  (pin : Z -> bool) (s : Sketch) :
  reachable entropy beyond pin s ->
  (MIN_COUNTER_TRIGGER s <= MAX_COUNTER_TRIGGER s /\ 1 <= device_count s) /\
  bounds_ok (loop entropy beyond s) /\
  bounds_ok (decay s).
Proof.
  intros H.
  assert (Hinv : typed s /\ bounds_ok s).
  { destruct H as [Hc|Hr].
    - exact (configured_invariant pin s Hc).
    - exact (running_invariant entropy beyond pin s Hr). }
  destruct Hinv as [T B].
  split; [exact B|]. split.
  - exact (proj2 (loop_invariant entropy beyond s T B)).
  - exact (proj2 (decay_invariant s T B)).
Qed.

Lemma bounds_invariant_witness :
  (MIN_COUNTER_TRIGGER (arm no_entropy unactivated)
   <= MAX_COUNTER_TRIGGER (arm no_entropy unactivated) /\
   1 <= device_count (arm no_entropy unactivated)) /\
  bounds_ok (loop no_entropy no_stray (arm no_entropy unactivated)) /\
  bounds_ok (decay (arm no_entropy unactivated)).
Proof.
  apply (bounds_invariant no_entropy no_stray untouched).
  right. exact running_unactivated.
Defined.

Lemma trigger_day_counter (entropy : Z -> nat -> Z) (beyond : Z -> Z)
  (s : Sketch) :
  day_counter (trigger entropy beyond s) = day_counter s.
Proof.
  destruct (Z_le_gt_dec (counter_trigger s) (watchdog_counter s)) as [H|H].
  - pose proof (trigger_fire entropy beyond s H) as G.
    unfold globals in G. injection G as _ _ _ _ _ G _ _ _ _. exact G.
  - pose proof (trigger_idle entropy beyond s ltac:(lia)) as G.
    unfold globals in G. injection G as _ _ _ _ _ G _ _ _ _. exact G.
Qed.

(** C10: a pass of [loop] that finds the day counter at or above three
    days leaves it at 0, whatever the device count; so after every pass the
    day counter is at most (indeed below) three days. *)
Theorem day_counter_reset (entropy : Z -> nat -> Z) (beyond : Z -> Z)
  (s : Sketch) :
  (DAY * 3 <= day_counter (count_day (sleep_mode s)) ->
   day_counter (loop entropy beyond s) = 0) /\
  day_counter (loop entropy beyond s) <= DAY * 3 /\
  day_counter (loop entropy beyond s) < DAY * 3.
Proof.
  unfold loop. rewrite trigger_day_counter.
  destruct (decay_fields (count_day (sleep_mode s))) as [D _].
  rewrite D.
  destruct (Z.geb_spec (day_counter (count_day (sleep_mode s))) (DAY * 3));
    unfold DAY in *; repeat split; lia.
Qed.

Lemma day_counter_reset_witness :
  device_count (eve power_on) = 1 /\
  day_counter (loop no_entropy no_stray (eve power_on)) = 0 /\
  day_counter (loop no_entropy no_stray (eve power_on)) <= DAY * 3.
Proof.
  split; [reflexivity|].
  destruct (day_counter_reset no_entropy no_stray (eve power_on))
    as (H1 & H2 & _).
  split; [apply H1; vm_compute; discriminate|exact H2].
Defined.

(** ** Decay at a multi-day boundary (claim C4) *)

Section DecayFacts.

Variable entropy : Z -> nat -> Z.
Variable beyond : Z -> Z.

Lemma bounds_fields (s : Sketch) (lo hi n : Z) :
  bounds s = (lo, hi, n) ->
  MIN_COUNTER_TRIGGER s = lo /\ MAX_COUNTER_TRIGGER s = hi /\
  device_count s = n.
Proof. unfold bounds. intros H. injection H as -> -> ->. auto. Qed.

Lemma trigger_bounds (s : Sketch) :
  bounds (trigger entropy beyond s) = bounds s.
Proof.
  unfold bounds.
  destruct (Z_le_gt_dec (counter_trigger s) (watchdog_counter s)) as [H|H].
  - pose proof (trigger_fire entropy beyond s H) as G.
    unfold globals in G. injection G as -> -> _ _ -> _ _ _ _ _. reflexivity.
  - pose proof (trigger_idle entropy beyond s ltac:(lia)) as G.
    unfold globals in G. injection G as -> -> _ _ -> _ _ _ _ _. reflexivity.
Qed.

(** On a boundary the bounds shrink by one share of the device count when
    there is more than one device, and stay as they are otherwise. *)
Lemma next_boundary_bounds (s : Sketch) :
  bounds (next_boundary entropy beyond s)
  = if device_count s >? 1
    then (to_int (to_int (Z.quot (MIN_COUNTER_TRIGGER s) (device_count s))
                  * to_int (device_count s - 1)),
          to_int (to_int (Z.quot (MAX_COUNTER_TRIGGER s) (device_count s))
                  * to_int (device_count s - 1)),
          to_int (device_count s - 1))
    else bounds s.
Proof.
  unfold next_boundary, loop. rewrite trigger_bounds. unfold bounds.
  rewrite decay_bounds.
  unfold count_day, sleep_mode, WDT_vect, eve. sketch_fields.
  change (to_long (DAY * 3 - 1 + 1) >=? DAY * 3) with true.
  reflexivity.
Qed.

(** Between boundaries the bounds are left alone. *)
Lemma loop_off_boundary (s : Sketch) :
  day_counter (count_day (sleep_mode s)) < DAY * 3 ->
  bounds (loop entropy beyond s) = bounds s.
Proof.
  intros H. unfold loop. rewrite trigger_bounds. unfold bounds.
  rewrite decay_bounds.
  destruct (Z.geb_spec (day_counter (count_day (sleep_mode s))) (DAY * 3));
    [lia|].
  cbn [andb]. unfold count_day, sleep_mode, WDT_vect. sketch_fields.
  destruct (started s); reflexivity.
Qed.

Lemma next_boundary_single (s : Sketch) :
  device_count s = 1 -> bounds (next_boundary entropy beyond s) = bounds s.
Proof.
  intros H. rewrite next_boundary_bounds, H. reflexivity.
Qed.

Lemma boundaries_single (n : nat) (s : Sketch) :
  device_count s = 1 ->
  bounds (Nat.iter n (next_boundary entropy beyond) s) = bounds s.
Proof.
  intros H. induction n as [|n IH]; [reflexivity|].
  rewrite Nat.iter_succ. rewrite next_boundary_single; [exact IH|].
  unfold bounds in IH. congruence.
Qed.

(** C4: with four devices and bounds (100, 200), the first multi-day
    boundary leaves bounds (75, 150) and three devices, the second (50, 100)
    and two, the third (25, 50) and one; every later boundary leaves the
    bounds and the single device as they are, as does every boundary met
    with a single device.  Passes of [loop] that are not on a boundary leave
    the bounds alone. *)
Theorem decay_example (s : Sketch) :
  MIN_COUNTER_TRIGGER s = 100 ->
  MAX_COUNTER_TRIGGER s = 200 ->
  device_count s = 4 ->
  bounds (Nat.iter 1 (next_boundary entropy beyond) s) = (75, 150, 3) /\
  bounds (Nat.iter 2 (next_boundary entropy beyond) s) = (50, 100, 2) /\
  (forall n, (3 <= n)%nat ->
     bounds (Nat.iter n (next_boundary entropy beyond) s) = (25, 50, 1)) /\
  (forall s', device_count s' = 1 ->
     bounds (next_boundary entropy beyond s') = bounds s') /\
  (forall s', day_counter (count_day (sleep_mode s')) < DAY * 3 ->
     bounds (loop entropy beyond s') = bounds s').
Proof.
  intros Hmin Hmax Hdc.
  assert (H1 : bounds (next_boundary entropy beyond s) = (75, 150, 3)).
  { rewrite next_boundary_bounds, Hmin, Hmax, Hdc. reflexivity. }
  set (s1 := next_boundary entropy beyond s) in *.
  assert (H2 : bounds (next_boundary entropy beyond s1) = (50, 100, 2)).
  { destruct (bounds_fields _ _ _ _ H1) as (E1 & E2 & E3).
    rewrite next_boundary_bounds, E1, E2, E3. reflexivity. }
  set (s2 := next_boundary entropy beyond s1) in *.
  assert (H3 : bounds (next_boundary entropy beyond s2) = (25, 50, 1)).
  { destruct (bounds_fields _ _ _ _ H2) as (E1 & E2 & E3).
    rewrite next_boundary_bounds, E1, E2, E3. reflexivity. }
  split; [exact H1|]. split; [exact H2|]. split.
  - intros n Hn.
    replace n with ((n - 3) + 3)%nat by lia.
    rewrite Nat.iter_add.
    change (Nat.iter 3 (next_boundary entropy beyond) s)
      with (next_boundary entropy beyond s2).
    rewrite boundaries_single; [exact H3|].
    apply (bounds_fields _ _ _ _ H3).
  - split; [apply next_boundary_single|apply loop_off_boundary].
Qed.

End DecayFacts.

Lemma decay_example_witness :
  bounds (Nat.iter 1 (next_boundary no_entropy no_stray) four_devices)
  = (75, 150, 3) /\
  bounds (Nat.iter 2 (next_boundary no_entropy no_stray) four_devices)
  = (50, 100, 2) /\
  (forall n, (3 <= n)%nat ->
     bounds (Nat.iter n (next_boundary no_entropy no_stray) four_devices)
     = (25, 50, 1)) /\
  (forall s', device_count s' = 1 ->
     bounds (next_boundary no_entropy no_stray s') = bounds s') /\
  (forall s', day_counter (count_day (sleep_mode s')) < DAY * 3 ->
     bounds (loop no_entropy no_stray s') = bounds s').
Proof.
  apply (decay_example no_entropy no_stray four_devices); reflexivity.
Defined.

(** ** The initial delay (claim C7) *)

Section InitialDelayFacts.

Variable entropy : Z -> nat -> Z.
Variable beyond : Z -> Z.

Lemma sleep_mode_set_INITIAL (v : Z) (s : Sketch) :
  sleep_mode (set_INITIAL_COUNTER_TRIGGER v s)
  = set_INITIAL_COUNTER_TRIGGER v (sleep_mode s).
Proof. reflexivity. Qed.

Lemma count_day_set_INITIAL (v : Z) (s : Sketch) :
  count_day (set_INITIAL_COUNTER_TRIGGER v s)
  = set_INITIAL_COUNTER_TRIGGER v (count_day s).
Proof.
  unfold count_day. sketch_fields. destruct (started s); reflexivity.
Qed.

Lemma decay_set_INITIAL (v : Z) (s : Sketch) :
  decay (set_INITIAL_COUNTER_TRIGGER v s)
  = set_INITIAL_COUNTER_TRIGGER v (decay s).
Proof.
  unfold decay, shrink. sketch_fields.
  destruct (day_counter s >=? DAY * 3); [|reflexivity].
  destruct (device_count s >? 1); [|reflexivity].
  destruct (WATCHDOG_PARAM s =? TEST_WATCHDOG_PARAM); reflexivity.
Qed.

(** The threshold left by [trigger] does not depend on the initial delay. *)
Lemma trigger_set_INITIAL (v : Z) (s : Sketch) :
  counter_trigger (trigger entropy beyond (set_INITIAL_COUNTER_TRIGGER v s))
  = counter_trigger (trigger entropy beyond s).
Proof.
  destruct (Z_le_gt_dec (counter_trigger s) (watchdog_counter s)) as [H|H].
  - pose proof (trigger_fire entropy beyond s H) as G.
    pose proof (trigger_fire entropy beyond
                  (set_INITIAL_COUNTER_TRIGGER v s) H) as G'.
    unfold globals in G, G'.
    injection G as _ _ _ _ _ _ _ G _ _.
    injection G' as _ _ _ _ _ _ _ G' _ _.
    rewrite G, G'. sketch_fields. apply random2_fst_rng; reflexivity.
  - pose proof (trigger_idle entropy beyond s ltac:(lia)) as G.
    pose proof (trigger_idle entropy beyond
                  (set_INITIAL_COUNTER_TRIGGER v s)
                  ltac:(sketch_fields; lia)) as G'.
    unfold globals in G, G'.
    injection G as _ _ _ _ _ _ _ G _ _.
    injection G' as _ _ _ _ _ _ _ G' _ _.
    rewrite G, G'. reflexivity.
Qed.

(** C7: [setup] leaves a threshold made of a draw between the bounds plus
    the initial delay.  A pass of [loop] that fires replaces it by a draw
    between the bounds alone: the new threshold is that draw, and it is the
    same whatever value the initial delay holds.  A pass that does not fire
    keeps the threshold. *)
Theorem initial_delay_once (c s : Sketch) :
  counter_trigger s <= watchdog_counter (sleep_mode s) ->
  counter_trigger (arm entropy c)
  = to_long
      (fst (random2 entropy (MIN_COUNTER_TRIGGER c) (MAX_COUNTER_TRIGGER c)
              (randomSeed (millis (board c)) c))
       + INITIAL_COUNTER_TRIGGER c) /\
  counter_trigger (loop entropy beyond s)
  = fst (random2 entropy
           (MIN_COUNTER_TRIGGER (loop entropy beyond s))
           (MAX_COUNTER_TRIGGER (loop entropy beyond s))
           (decay (count_day (sleep_mode s)))) /\
  (forall v,
     counter_trigger (loop entropy beyond (set_INITIAL_COUNTER_TRIGGER v s))
     = counter_trigger (loop entropy beyond s)) /\
  (forall s',
     watchdog_counter (sleep_mode s') < counter_trigger s' ->
     counter_trigger (loop entropy beyond s') = counter_trigger s').
Proof.
  intros Hfire.
  split; [apply arm_fields|]. split; [|split].
  - unfold loop. set (x := decay (count_day (sleep_mode s))).
    destruct (before_trigger s) as [E1 E2]. fold x in E1, E2.
    pose proof (trigger_fire entropy beyond x ltac:(lia)) as G.
    unfold globals in G. injection G as -> -> _ _ _ _ _ -> _ _.
    reflexivity.
  - intros v. unfold loop.
    rewrite sleep_mode_set_INITIAL, count_day_set_INITIAL,
      decay_set_INITIAL.
    apply trigger_set_INITIAL.
  - intros s' Hidle. unfold loop.
    set (x := decay (count_day (sleep_mode s'))).
    destruct (before_trigger s') as [E1 E2]. fold x in E1, E2.
    pose proof (trigger_idle entropy beyond x ltac:(lia)) as G.
    unfold globals in G. injection G as _ _ _ _ _ _ _ G _ _.
    rewrite G. exact E1.
Qed.

End InitialDelayFacts.

Lemma initial_delay_once_witness :
  let c := unactivated in
  let s := arm no_entropy unactivated in
  counter_trigger (arm no_entropy c)
  = to_long
      (fst (random2 no_entropy (MIN_COUNTER_TRIGGER c)
              (MAX_COUNTER_TRIGGER c) (randomSeed (millis (board c)) c))
       + INITIAL_COUNTER_TRIGGER c) /\
  counter_trigger (loop no_entropy no_stray s)
  = fst (random2 no_entropy
           (MIN_COUNTER_TRIGGER (loop no_entropy no_stray s))
           (MAX_COUNTER_TRIGGER (loop no_entropy no_stray s))
           (decay (count_day (sleep_mode s)))) /\
  (forall v,
     counter_trigger
       (loop no_entropy no_stray (set_INITIAL_COUNTER_TRIGGER v s))
     = counter_trigger (loop no_entropy no_stray s)) /\
  (forall s',
     watchdog_counter (sleep_mode s') < counter_trigger s' ->
     counter_trigger (loop no_entropy no_stray s') = counter_trigger s').
Proof.
  intros c s.
  apply (initial_delay_once no_entropy no_stray c s).
  vm_compute. discriminate.
Defined.

(** ** The tone generator (claim C8) *)



Lemma play_high_formula (period duty : Z) :
  0 <= period * duty < 2 ^ 31 ->
  play_high period duty = Z.min (period * duty / 100) 150.
Proof.
  intros H. unfold play_high.
  rewrite to_long_small by (unfold is_long; lia).
  rewrite Z.quot_div_nonneg by lia.
  assert (0 <= period * duty / 100 < 2 ^ 31).
  { split; [apply Z.div_pos; lia|].
    apply Z.div_lt_upper_bound; lia. }
  rewrite to_ulong_small by lia.
  destruct (Z.ltb_spec 150 (period * duty / 100)); lia.
Qed.





(** ** The glide patterns (claim C9) *)

Section GlideFacts.

Variable entropy : Z -> nat -> Z.
Variable beyond : Z -> Z.

Lemma fill_length (n : nat) (lo hi : Z) : forall s,
  length (fst (fill entropy n lo hi s)) = n.
Proof.
  induction n as [|n IH]; intros s; [reflexivity|].
  cbn [fill].
  destruct (random2 entropy lo hi s) as [r s1].
  pose proof (IH s1) as H.
  destruct (fill entropy n lo hi s1) as [rest s2].
  cbn [fst length] in *. rewrite H. reflexivity.
Qed.

Lemma fill_strays (n : nat) (lo hi : Z) : forall s,
  strays (snd (fill entropy n lo hi s)) = strays s.
Proof.
  induction n as [|n IH]; intros s; [reflexivity|].
  cbn [fill].
  pose proof (random2_strays entropy lo hi s) as H1.
  destruct (random2 entropy lo hi s) as [r s1].
  pose proof (IH s1) as H2.
  destruct (fill entropy n lo hi s1) as [rest s2].
  cbn [snd] in *. congruence.
Qed.

(** The number of values taken from the generator by [fill]. *)
Lemma fill_draws (n : nat) (lo hi : Z) : forall s,
  lo < hi -> is_int lo -> is_int hi ->
  draws (snd (fill entropy n lo hi s)) = (draws s + n)%nat.
Proof.
  intros s Hlt Hlo Hhi. revert s.
  induction n as [|n IH]; intros s; [cbn; lia|].
  cbn [fill].
  assert (H1 : draws (snd (random2 entropy lo hi s)) = S (draws s)).
  { unfold random2, random1, libc_random.
    destruct (Z.geb_spec lo hi); [lia|].
    rewrite to_long_small by (unfold is_int, is_long in *; lia).
    destruct (Z.eqb_spec (hi - lo) 0); [lia|]. reflexivity. }
  destruct (random2 entropy lo hi s) as [r s1].
  pose proof (IH s1) as H2.
  destruct (fill entropy n lo hi s1) as [rest s2].
  cbn [snd] in *. lia.
Qed.

Lemma play_at_strays (periods : list Z) (x : Z) (s : Sketch) :
  strays (play_at beyond periods x s)
  = if (0 <=? x) && (x <? Z.of_nat (length periods))
    then strays s else x :: strays s.
Proof.
  unfold play_at, load.
  destruct ((0 <=? x) && (x <? Z.of_nat (length periods))); reflexivity.
Qed.

Lemma play_up_strays (periods : list Z) (n : nat) : forall x s,
  length periods = 100%nat ->
  0 <= x -> x + Z.of_nat n <= 100 ->
  strays (play_up beyond n x periods s) = strays s.
Proof.
  induction n as [|n IH]; intros x s Hlen Hx Hn; [reflexivity|].
  cbn [play_up]. destruct (Z.ltb_spec x 100); [|lia].
  rewrite (to_int_small (x + 1)) by (unfold is_int; lia).
  rewrite IH by lia. rewrite play_at_strays, Hlen.
  destruct (Z.leb_spec 0 x); [|lia].
  destruct (Z.ltb_spec x (Z.of_nat 100)); [reflexivity|lia].
Qed.

Lemma play_down_strays (periods : list Z) (n : nat) : forall x s,
  length periods = 100%nat ->
  Z.of_nat n = x + 1 -> x < 100 ->
  strays (play_down beyond n x periods s) = strays s.
Proof.
  induction n as [|n IH]; intros x s Hlen Hn Hx; [reflexivity|].
  cbn [play_down]. destruct (Z.geb_spec x 0); [|lia].
  rewrite (to_int_small (x - 1)) by (unfold is_int; lia).
  rewrite IH by lia. rewrite play_at_strays, Hlen.
  destruct (Z.leb_spec 0 x); [|lia].
  destruct (Z.ltb_spec x (Z.of_nat 100)); [reflexivity|lia].
Qed.

Lemma play_down_step (periods : list Z) (n : nat) (x : Z) (s : Sketch) :
  play_down beyond (S n) x periods s
  = if x >=? 0
    then play_down beyond n (to_int (x - 1)) periods
           (play_at beyond periods x s)
    else s.
Proof. reflexivity. Qed.

(** C9 does not hold of the sketch: whatever the band and the state, a
    glide pattern fills an array of 100 periods and then reads it once
    outside its bounds, at index 100, when the reversed loop starts. *)
Theorem annoy3_reads_past_the_end (lo hi : Z) (s : Sketch) :
  length (fst (fill entropy 100 lo hi s)) = 100%nat /\
  strays (annoy3 entropy beyond lo hi s) = 100 :: strays s.
Proof.
  split; [apply fill_length|].
  unfold annoy3.
  pose proof (fill_length 100 lo hi s) as Hlen.
  pose proof (fill_strays 100 lo hi s) as Hst.
  destruct (fill entropy 100 lo hi s) as [periods s1].
  cbn [fst snd] in Hlen, Hst.
  rewrite (play_down_step periods 100 100).
  change (100 >=? 0) with true. cbn iota.
  change (to_int (100 - 1)) with 99.
  rewrite play_down_strays by (auto; lia).
  rewrite play_at_strays, Hlen.
  change ((0 <=? 100) && (100 <? Z.of_nat 100)) with false. cbn iota.
  rewrite play_up_strays by (auto; lia).
  rewrite Hst. reflexivity.
Qed.

End GlideFacts.

(** ** Configuration returns *)

(** The clock never runs backwards. *)
Lemma delay_clock_ge (ms : Z) (b : Board) : clock b <= clock (delay ms b).
Proof.
  unfold delay, to_ulong. cbn [clock].
  pose proof (Z.mod_pos_bound ms (2 ^ 32) ltac:(lia)). lia.
Qed.

Lemma tone_clock_ge (n : nat) : forall (end_ pa pb : Z) (b : Board),
  clock b <= clock (tone n end_ pa pb b).
Proof.
  induction n as [|n IH]; intros end_ pa pb b; cbn [tone]; [lia|].
  destruct (millis b <? end_); [|lia].
  specialize (IH end_ pa pb (tick (pulse pa pb b))).
  cbn [tick pulse clock] in IH. lia.
Qed.

Lemma play4_clock_ge (period dur pause duty : Z) (b : Board) :
  clock b <= clock (play4 period dur pause duty b).
Proof.
  unfold play4.
  pose proof (tone_clock_ge (Z.to_nat (to_ulong (millis b + dur) - millis b))
                (to_ulong (millis b + dur)) (play_high period duty)
                (play_low period duty) b) as H1.
  pose proof (delay_clock_ge pause
                (tone (Z.to_nat (to_ulong (millis b + dur) - millis b))
                   (to_ulong (millis b + dur)) (play_high period duty)
                   (play_low period duty) b)) as H2.
  lia.
Qed.

Lemma beeps_clock_ge (n : Z) (b : Board) : clock b <= clock (beeps n b).
Proof.
  unfold beeps. induction (Z.to_nat n) as [|k IH]; [cbn; lia|].
  rewrite Nat.iter_succ.
  pose proof (play4_clock_ge 400 200 200 DUTY
                (Nat.iter k (play3 400 200 200) b)) as H.
  unfold play3 at 1. lia.
Qed.

Section Returns.

Variable pin : Z -> bool.

(** The operator leaves the pin alone from [T] on. *)
Variable T : Z.
Hypothesis quiet : forall t, T <= t -> pin t = false.

Lemma watch_clock_ge (n : nat) : forall (end_ period dur : Z) (b : Board),
  clock b <= clock (snd (watch pin n end_ period dur b)).
Proof.
  induction n as [|n IH]; intros end_ period dur b; cbn [watch];
    [cbn; lia|].
  destruct (millis b <? end_); [|cbn; lia].
  destruct (digitalRead pin b).
  - cbn [snd]. apply play4_clock_ge.
  - specialize (IH end_ period dur (tick b)). cbn [tick clock] in IH. lia.
Qed.

Lemma watch_quiet (n : nat) : forall (end_ period dur : Z) (b : Board),
  T <= clock b -> fst (watch pin n end_ period dur b) = false.
Proof.
  induction n as [|n IH]; intros end_ period dur b Hb; cbn [watch];
    [reflexivity|].
  destruct (millis b <? end_); [|reflexivity].
  unfold digitalRead. rewrite quiet by exact Hb.
  apply IH. cbn [tick clock]. lia.
Qed.

Lemma await_release_returns (fuel : nat) : forall b,
  Z.max 0 (T - clock b) < Z.of_nat fuel ->
  exists b', await_release pin fuel b = Some b' /\ clock b <= clock b'.
Proof.
  induction fuel as [|fuel IH]; intros b Hf; [lia|].
  cbn [await_release]. unfold digitalRead.
  destruct (pin (clock b)) eqn:E.
  - assert (clock b < T).
    { destruct (Z_lt_ge_dec (clock b) T) as [H|H]; [exact H|].
      rewrite quiet in E by lia. discriminate. }
    destruct (IH (delay 10 b)) as (b' & Hrun & Hge).
    + rewrite delay_clock by lia. lia.
    + exists b'. split; [exact Hrun|].
      pose proof (delay_clock_ge 10 b). lia.
  - exists b. split; [reflexivity|lia].
Qed.

Lemma count_taps_returns (inner : nat) (period timeout : Z) (fuel : nat) :
  forall count b,
  Z.max 0 (T - clock b) < Z.of_nat fuel ->
  Z.max 0 (T - clock b) < Z.of_nat inner ->
  exists count' b',
    count_taps pin fuel inner period timeout count b = Some (count', b') /\
    clock b <= clock b'.
Proof.
  induction fuel as [|fuel IH]; intros count b Hf Hi; [lia|].
  cbn [count_taps]. unfold readActivationPinBoolean3.
  set (end_ := to_ulong (millis b + timeout)).
  set (n := Z.to_nat (end_ - millis b)).
  pose proof (watch_clock_ge n end_ period 100 b) as Hge.
  pose proof (watch_quiet n end_ period 100 b) as Hq.
  destruct (watch pin n end_ period 100 b) as [tapped b1].
  cbn [fst snd] in *. destruct tapped.
  - assert (Hlt : clock b < T).
    { destruct (Z_lt_ge_dec (clock b) T) as [H|H]; [exact H|].
      specialize (Hq ltac:(lia)). discriminate. }
    pose proof (delay_clock 100 b1 ltac:(lia)) as Hd1.
    destruct (await_release_returns inner (delay 100 b1))
      as (b2 & Hrun & Hge2); [lia|].
    rewrite Hrun.
    pose proof (delay_clock 100 b2 ltac:(lia)) as Hd2.
    destruct (IH (to_int (count + 1)) (delay 100 b2))
      as (count' & b' & Hrun' & Hge'); try lia.
    exists count', b'. split; [exact Hrun'|lia].
  - exists count, b1. split; [reflexivity|lia].
Qed.

Lemma readActivationPinByte_returns (fuel : nat) (period timeout : Z)
  (b : Board) :
  Z.max 0 (T - clock b) < Z.of_nat fuel ->
  exists n b',
    readActivationPinByte pin fuel period timeout b = Some (n, b') /\
    clock b <= clock b'.
Proof.
  intros Hf.
  destruct (count_taps_returns fuel period timeout fuel 0 b Hf Hf)
    as (count' & b' & Hrun & Hge).
  exists (to_byte count'), b'. unfold readActivationPinByte.
  rewrite Hrun. split; [reflexivity|exact Hge].
Qed.

(** With an operator who stops tapping, [readConfiguration] and [setup]
    return, given enough fuel. *)
Lemma readConfiguration_returns (fuel : nat) :
  Z.max 0 T < Z.of_nat fuel ->
  exists s, readConfiguration pin fuel power_on = Some s.
Proof.
  intros Hf. unfold readConfiguration, readActivationPinBoolean2,
    readActivationPinBoolean3.
  set (s0 := on_board (play2 450 ON_MICROS) power_on).
  assert (H0 : 0 <= clock (board s0)).
  { unfold s0, on_board. cbn [board set_board].
    pose proof (play4_clock_ge 450 ON_MICROS 0 DUTY (board power_on)) as H.
    unfold play2. cbn [board power_on clock] in *. lia. }
  match goal with
  | |- context [watch pin ?n ?e ?p ?d (board s0)] =>
      pose proof (watch_clock_ge n e p d (board s0)) as H1;
      destruct (watch pin n e p d (board s0)) as [active b1]
  end.
  cbn [snd] in H1. destruct active; [|eexists; reflexivity].
  destruct (readActivationPinByte_returns fuel 400 1000 b1)
    as (days & b2 & Hrun2 & H2); [lia|].
  rewrite Hrun2.
  set (b4 := if days =? 0 then play3 500 200 200 (beeps days b2)
             else beeps days b2).
  assert (H4 : clock b2 <= clock b4).
  { unfold b4. pose proof (beeps_clock_ge days b2).
    pose proof (play4_clock_ge 500 200 200 DUTY (beeps days b2)).
    unfold play3. destruct (days =? 0); lia. }
  destruct (readActivationPinByte_returns fuel 400 1000 b4)
    as (others & b5 & Hrun3 & H5); [lia|].
  rewrite Hrun3.
  match goal with
  | |- context [watch pin ?n ?e ?p ?d ?b] =>
      destruct (watch pin n e p d b) as [testMode b7]
  end.
  eexists. reflexivity.
Qed.

End Returns.

Lemma setup_returns (entropy : Z -> nat -> Z) (pin : Z -> bool) (T : Z)
  (fuel : nat) :
  (forall t, T <= t -> pin t = false) ->
  Z.max 0 T < Z.of_nat fuel ->
  exists s, setup entropy pin fuel power_on = Some s.
Proof.
  intros Hq Hf.
  destruct (readConfiguration_returns pin T Hq fuel Hf) as [s Hs].
  exists (arm entropy s). unfold setup. rewrite Hs. reflexivity.
Qed.

(** * Further properties of the sketch *)

(** ** The watchdog register *)

Lemma land_7_cases (z : Z) :
  Z.land z 7 = 0 \/ Z.land z 7 = 1 \/ Z.land z 7 = 2 \/ Z.land z 7 = 3 \/
  Z.land z 7 = 4 \/ Z.land z 7 = 5 \/ Z.land z 7 = 6 \/ Z.land z 7 = 7.
Proof.
  assert (E : Z.land z 7 = z mod 8).
  { change 7 with (Z.ones 3). rewrite Z.land_ones by lia. reflexivity. }
  rewrite E.
  pose proof (Z.mod_pos_bound z 8 ltac:(lia)) as H. lia.
Qed.

(** The value [setup_watchdog] leaves in WDTCR does not depend on what the
    register held. *)
Lemma setup_watchdog_WDTCR (ii : Z) (s : Sketch) :
  WDTCR (setup_watchdog ii s)
  = let ii := if ii >? 9 then 9 else ii in
    let bb := to_byte (Z.land ii 7) in
    let bb := if ii >? 7 then to_byte (Z.lor bb (Z.shiftl 1 5)) else bb in
    let bb := to_byte (Z.lor bb (Z.shiftl 1 WDCE)) in
    to_byte (Z.lor bb (Z.shiftl 1 WDIE)).
Proof. reflexivity. Qed.

(** [setup_watchdog] stores the prescaler code it is given: for a code from
    0 to 9 the register decodes to that code, and a larger argument is
    stored as 9, the longest period. *)
Theorem setup_watchdog_prescaler (ii : Z) (s : Sketch) :
  0 <= ii ->
  prescaler (WDTCR (setup_watchdog ii s)) = Z.min ii 9 /\
  wake_period (prescaler (WDTCR (setup_watchdog ii s)))
  = wake_period (Z.min ii 9).
Proof.
  intros H.
  assert (E : prescaler (WDTCR (setup_watchdog ii s)) = Z.min ii 9).
  { rewrite setup_watchdog_WDTCR.
    destruct (Z.gtb_spec ii 9) as [Hgt|Hle].
    - rewrite Z.min_r by lia. reflexivity.
    - rewrite Z.min_l by lia.
      assert (C : ii = 0 \/ ii = 1 \/ ii = 2 \/ ii = 3 \/ ii = 4 \/ ii = 5 \/
                  ii = 6 \/ ii = 7 \/ ii = 8 \/ ii = 9) by lia.
      repeat (destruct C as [C|C]; [subst ii; reflexivity|]).
      subst ii. reflexivity. }
  split; [exact E|]. rewrite E. reflexivity.
Qed.

Lemma setup_watchdog_prescaler_witness :
  prescaler (WDTCR (setup_watchdog 12 power_on)) = Z.min 12 9 /\
  wake_period (prescaler (WDTCR (setup_watchdog 12 power_on)))
  = wake_period (Z.min 12 9).
Proof.
  apply (setup_watchdog_prescaler 12 power_on). lia.
Defined.

(** Whatever its argument and whatever the register held, [setup_watchdog]
    leaves the watchdog with its interrupt enabled (WDIE) and its system
    reset disabled (WDE): a watchdog timeout wakes the sketch and never
    restarts it.  The prescaler code left in the register is at most 9. *)
Theorem setup_watchdog_interrupt_mode (ii : Z) (s : Sketch) :
  Z.testbit (WDTCR (setup_watchdog ii s)) WDIE = true /\
  Z.testbit (WDTCR (setup_watchdog ii s)) WDE = false /\
  0 <= prescaler (WDTCR (setup_watchdog ii s)) <= 9.
Proof.
  rewrite setup_watchdog_WDTCR. cbv zeta.
  set (jj := if ii >? 9 then 9 else ii).
  assert (Hjj : jj <= 9).
  { unfold jj. destruct (Z.gtb_spec ii 9); lia. }
  destruct (Z.gtb_spec jj 7) as [Hgt|Hle].
  - assert (C : jj = 8 \/ jj = 9) by lia.
    destruct C as [C|C]; rewrite C; repeat split; cbv; congruence.
  - pose proof (land_7_cases jj) as C.
    repeat (destruct C as [C|C];
            [rewrite C; repeat split; cbv; congruence|]).
    rewrite C; repeat split; cbv; congruence.
Qed.

(** ** The tone generator *)




(** With the duty of the sketch, the high and the low time of a cycle add
    up to the period: [period] is the length of a whole cycle in
    microseconds, for every period that [delayMicroseconds] can take. *)
Theorem play_cycle_length (period : Z) :
  0 <= period < 2 ^ 16 ->
  play_high period DUTY + to_uint (play_low period DUTY) = period /\
  play_high period DUTY <= period.
Proof.
  intros H. unfold DUTY.
  assert (Hf : play_high period 30 = Z.min (period * 30 / 100) 150)
    by (apply play_high_formula; lia).
  assert (Hq : 0 <= period * 30 / 100 <= period).
  { split; [apply Z.div_pos; lia|].
    apply Z.div_le_upper_bound; lia. }
  assert (Hle : 0 <= play_high period 30 <= period) by lia.
  unfold play_low.
  rewrite (to_ulong_small (period - play_high period 30)) by lia.
  rewrite to_uint_small by lia. lia.
Qed.

Lemma play_cycle_length_witness :
  play_high 610 DUTY + to_uint (play_low 610 DUTY) = 610 /\
  play_high 610 DUTY <= 610.
Proof.
  apply (play_cycle_length 610). lia.
Defined.

(** ** Drawing the threshold *)

Section DrawFacts.

Variable entropy : Z -> nat -> Z.
Variable beyond : Z -> Z.

Lemma random2_draws (lo hi : Z) (s : Sketch) :
  is_int lo -> is_int hi ->
  draws (snd (random2 entropy lo hi s))
  = if lo <? hi then S (draws s) else draws s.
Proof.
  unfold is_int. intros Hlo Hhi. unfold random2, random1, libc_random.
  destruct (Z.geb_spec lo hi) as [Hge|Hlt];
    destruct (Z.ltb_spec lo hi); try lia; [reflexivity|].
  rewrite to_long_small by (unfold is_long; lia).
  destruct (Z.eqb_spec (hi - lo) 0); [lia|]. reflexivity.
Qed.


(** [newTriggerCounter] draws the threshold from the lower bound up to, but
    not including, the upper bound, taking one value from the generator;
    when the bounds do not leave room (as in super-annoying mode, where both
    are 0) the threshold is the lower bound and the generator is left
    alone. *)
Theorem newTriggerCounter_excludes_max (s : Sketch) :
  is_int (MIN_COUNTER_TRIGGER s) -> is_int (MAX_COUNTER_TRIGGER s) ->
  (MIN_COUNTER_TRIGGER s < MAX_COUNTER_TRIGGER s ->
   MIN_COUNTER_TRIGGER s <= counter_trigger (newTriggerCounter entropy s)
   < MAX_COUNTER_TRIGGER s /\
   draws (newTriggerCounter entropy s) = S (draws s)) /\
  (MAX_COUNTER_TRIGGER s <= MIN_COUNTER_TRIGGER s ->
   counter_trigger (newTriggerCounter entropy s) = MIN_COUNTER_TRIGGER s /\
   draws (newTriggerCounter entropy s) = draws s).
Proof.
  intros Hlo Hhi. unfold newTriggerCounter.
  pose proof (random2_draws (MIN_COUNTER_TRIGGER s) (MAX_COUNTER_TRIGGER s)
                s Hlo Hhi) as Hd.
  split.
  - intros Hlt.
    destruct (random2_range entropy _ _ s Hlo Hhi ltac:(lia)) as [Hr Hx].
    specialize (Hx Hlt).
    destruct (random2 entropy (MIN_COUNTER_TRIGGER s)
                (MAX_COUNTER_TRIGGER s) s) as [r s'].
    cbn [fst snd] in *. sketch_fields.
    destruct (Z.ltb_spec (MIN_COUNTER_TRIGGER s) (MAX_COUNTER_TRIGGER s));
      [|lia].
    split; [lia|exact Hd].
  - intros Hge.
    assert (Hv : fst (random2 entropy (MIN_COUNTER_TRIGGER s)
                        (MAX_COUNTER_TRIGGER s) s) = MIN_COUNTER_TRIGGER s).
    { unfold random2.
      destruct (Z.geb_spec (MIN_COUNTER_TRIGGER s) (MAX_COUNTER_TRIGGER s));
        [reflexivity|lia]. }
    destruct (random2 entropy (MIN_COUNTER_TRIGGER s)
                (MAX_COUNTER_TRIGGER s) s) as [r s'].
    cbn [fst snd] in *. sketch_fields.
    destruct (Z.ltb_spec (MIN_COUNTER_TRIGGER s) (MAX_COUNTER_TRIGGER s));
      [lia|].
    split; [exact Hv|exact Hd].
Qed.

(** ** Annoyance episodes *)


Lemma fill_band (n : nat) (lo hi : Z) : forall s,
  is_int lo -> is_int hi -> lo < hi ->
  Forall (fun p => lo <= p < hi) (fst (fill entropy n lo hi s)).
Proof.
  intros s Hlo Hhi Hlt. revert s.
  induction n as [|n IH]; intros s; [constructor|].
  cbn [fill].
  destruct (random2_range entropy lo hi s Hlo Hhi ltac:(lia)) as [Hr Hx].
  specialize (Hx Hlt).
  destruct (random2 entropy lo hi s) as [r s1].
  pose proof (IH s1) as H2.
  destruct (fill entropy n lo hi s1) as [rest s2].
  cbn [fst] in *. constructor; [|exact H2].
  rewrite to_int_small; [lia|]. unfold is_int in *. lia.
Qed.

(** The first loop of a glide pattern stores [n] periods, each taken from
    the generator and each within the band, the upper end excluded. *)
Theorem fill_in_band (n : nat) (lo hi : Z) (s : Sketch) :
  is_int lo -> is_int hi -> lo < hi ->
  length (fst (fill entropy n lo hi s)) = n /\
  Forall (fun p => lo <= p < hi) (fst (fill entropy n lo hi s)) /\
  draws (snd (fill entropy n lo hi s)) = (draws s + n)%nat.
Proof.
  intros Hlo Hhi Hlt. split; [apply fill_length|]. split.
  - apply fill_band; assumption.
  - apply fill_draws; assumption.
Qed.











End DrawFacts.

Lemma newTriggerCounter_excludes_max_witness :
  (MIN_COUNTER_TRIGGER power_on < MAX_COUNTER_TRIGGER power_on ->
   MIN_COUNTER_TRIGGER power_on
   <= counter_trigger (newTriggerCounter no_entropy power_on)
   < MAX_COUNTER_TRIGGER power_on /\
   draws (newTriggerCounter no_entropy power_on) = S (draws power_on)) /\
  (MAX_COUNTER_TRIGGER power_on <= MIN_COUNTER_TRIGGER power_on ->
   counter_trigger (newTriggerCounter no_entropy power_on)
   = MIN_COUNTER_TRIGGER power_on /\
   draws (newTriggerCounter no_entropy power_on) = draws power_on).
Proof.
  apply (newTriggerCounter_excludes_max no_entropy power_on);
    unfold is_int; cbn; lia.
Defined.

Lemma fill_in_band_witness :
  length (fst (fill no_entropy 100 400 500 power_on)) = 100%nat /\
  Forall (fun p => 400 <= p < 500)
    (fst (fill no_entropy 100 400 500 power_on)) /\
  draws (snd (fill no_entropy 100 400 500 power_on))
  = (draws power_on + 100)%nat.
Proof.
  apply (fill_in_band no_entropy 100 400 500 power_on);
    unfold is_int; lia.
Defined.


(** ** Waiting for a tap *)

Section WaitFacts.

Variable pin : Z -> bool.



(** ** A pin that is never released *)

Lemma await_release_stuck (inner : nat) : forall b,
  (forall t, clock b <= t -> pin t = true) ->
  await_release pin inner b = None.
Proof.
  induction inner as [|inner IH]; intros b Hhigh; [reflexivity|].
  cbn [await_release]. unfold digitalRead. rewrite Hhigh by lia.
  apply IH. intros t Ht. apply Hhigh.
  pose proof (delay_clock_ge 10 b). lia.
Qed.

(** With the activation pin held high from the moment the counter starts
    listening, [readActivationPinByte] never returns: the tap is seen at
    once, and the loop that waits for the release has no timeout. *)
Theorem readActivationPinByte_stuck (fuel : nat) (period timeout : Z)
  (b : Board) :
  0 <= clock b -> 0 < timeout -> clock b + timeout < 2 ^ 32 ->
  (forall t, clock b <= t -> pin t = true) ->
  readActivationPinByte pin fuel period timeout b = None.
Proof.
  intros H0 Hto Hlt Hhigh. unfold readActivationPinByte.
  assert (H : count_taps pin fuel fuel period timeout 0 b = None).
  { destruct fuel as [|f]; [reflexivity|].
    cbn [count_taps].
    rewrite (readActivationPinBoolean3_hit pin period 100 timeout
               (clock b) b); try lia.
    - rewrite board_eta. rewrite await_release_stuck; [reflexivity|].
      intros t Ht. apply Hhigh.
      pose proof (play4_clock_ge period 100 0 DUTY b).
      pose proof (delay_clock_ge 100 (play2 period 100 b)).
      unfold play2 in *. lia.
    - apply Hhigh. lia. }
  rewrite H. reflexivity.
Qed.

(** With the activation pin shorted for good when the sketch listens for
    the activation, configuration never completes: neither
    [readConfiguration] nor [setup] returns, whatever the fuel. *)
Theorem readConfiguration_stuck (entropy : Z -> nat -> Z) (fuel : nat) :
  (forall t, ON_MICROS <= t -> pin t = true) ->
  readConfiguration pin fuel power_on = None /\
  setup entropy pin fuel power_on = None.
Proof.
  unfold ON_MICROS. intros Hhigh.
  assert (H : readConfiguration pin fuel power_on = None).
  { unfold readConfiguration, readActivationPinBoolean2, ON_MICROS.
    set (s0 := on_board (play2 450 300) power_on).
    assert (Hb0 : clock (board s0) = 300).
    { unfold s0, on_board. cbn [board set_board power_on].
      rewrite play2_clock; cbn [clock]; lia. }
    rewrite (readActivationPinBoolean3_hit pin 400 300 5000 300 (board s0));
      try lia.
    - rewrite readActivationPinByte_stuck; [reflexivity| | | |].
      + rewrite play2_clock; cbn [clock]; lia.
      + lia.
      + rewrite play2_clock; cbn [clock]; lia.
      + intros t Ht. apply Hhigh.
        rewrite play2_clock in Ht; cbn [clock] in *; lia.
    - apply Hhigh. lia. }
  split; [exact H|]. unfold setup. rewrite H. reflexivity.
Qed.

End WaitFacts.


Lemma readActivationPinByte_stuck_witness :
  readActivationPinByte shorted 1000 400 1000 (mkBoard 600 []) = None.
Proof.
  apply (readActivationPinByte_stuck shorted 1000 400 1000 (mkBoard 600 []));
    cbn [clock]; try lia.
  intros t _. reflexivity.
Defined.

Lemma readConfiguration_stuck_witness :
  readConfiguration shorted 1000 power_on = None /\
  setup no_entropy shorted 1000 power_on = None.
Proof.
  apply (readConfiguration_stuck shorted no_entropy 1000).
  intros t _. reflexivity.
Defined.

(** ** What configuration can produce *)

Lemma configure_settings (days others : Z) (testMode : bool) (b : Board)
  (f : Board -> Board) :
  0 <= days < 256 -> 0 <= others < 256 ->
  settings
    (configure days others testMode
       (set_board b (set_device_count (to_int (others + 1))
                       (on_board f power_on))))
  = if testMode
    then (TEST_MIN_COUNTER_TRIGGER * (others + 1),
          TEST_MAX_COUNTER_TRIGGER * (others + 1),
          TEST_INITIAL_COUNTER_TRIGGER + DAY * days,
          TEST_WATCHDOG_PARAM, others + 1)
    else (37 * (others + 1), 60 * (others + 1), 1 * DAY + DAY * days,
          9, others + 1).
Proof.
  intros Hd Ho.
  assert (Hdc : to_int (others + 1) = others + 1)
    by (apply to_int_small; unfold is_int; lia).
  unfold settings, configure, power_on.
  destruct testMode; cbn [negb]; sketch_fields; rewrite Hdc;
    unfold TEST_MIN_COUNTER_TRIGGER, TEST_MAX_COUNTER_TRIGGER,
      TEST_INITIAL_COUNTER_TRIGGER, TEST_WATCHDOG_PARAM;
    rewrite !(to_int_small (_ * (others + 1))) by (unfold is_int; lia);
    rewrite (to_long_small (DAY * days)) by (unfold is_long, DAY; lia);
    rewrite to_long_small by (unfold is_long, DAY; lia);
    reflexivity.
Qed.

Lemma configured_settings (pin : Z -> bool) (s : Sketch) :
  configured pin s ->
  (settings s = (0, 0, 0, TEST_WATCHDOG_PARAM, 1) \/
   (exists d m, 0 <= d <= 255 /\ 1 <= m <= 256 /\
      settings s = (37 * m, 60 * m, 1 * DAY + DAY * d, 9, m)) \/
   (exists d m, 0 <= d <= 255 /\ 1 <= m <= 256 /\
      settings s = (TEST_MIN_COUNTER_TRIGGER * m,
                    TEST_MAX_COUNTER_TRIGGER * m,
                    TEST_INITIAL_COUNTER_TRIGGER + DAY * d,
                    TEST_WATCHDOG_PARAM, m))) /\
  day_counter s = 0 /\ started s = false /\
  counter_trigger s = 0 /\ watchdog_counter s = 0.
Proof.
  intros [fuel H]. unfold readConfiguration in H.
  destruct (readActivationPinBoolean2 pin 400 5000
              (board (on_board (play2 450 ON_MICROS) power_on)))
    as [active b1].
  destruct active.
  - destruct (readActivationPinByte pin fuel 400 1000 b1)
      as [[days b2]|] eqn:E2; [|discriminate].
    destruct (readActivationPinByte pin fuel 400 1000
                (if days =? 0 then play3 500 200 200 (beeps days b2)
                 else beeps days b2))
      as [[others b5]|] eqn:E3; [|discriminate].
    destruct (readActivationPinBoolean2 pin 350 1000 _) as [testMode b7].
    injection H as <-.
    pose proof (readActivationPinByte_range _ _ _ _ _ _ _ E2) as Hd.
    pose proof (readActivationPinByte_range _ _ _ _ _ _ _ E3) as Ho.
    split.
    + rewrite configure_settings by assumption.
      right. destruct testMode; [right|left];
        exists days, (others + 1); repeat split; lia.
    + unfold configure, power_on. destruct testMode; cbn [negb];
        sketch_fields; repeat split; reflexivity.
  - injection H as <-. split; [left; reflexivity|].
    repeat split; reflexivity.
Qed.

(** Every configuration that [readConfiguration] can return, whatever the
    operator did: super-annoying mode (bounds and delay 0, one device), or
    for some count [d] of days up to 255 and some device count [m] from 1
    to 256 either the production settings (bounds 37 m and 60 m, delay of
    [d + 1] days, watchdog code 9) or the test settings (bounds 2 m and 4 m,
    delay of 3 wakes plus [d] days, watchdog code 7).  The counters of the
    scheduler are still at zero and the device has not started. *)
Theorem readConfiguration_settings (pin : Z -> bool) (fuel : nat)
  (s : Sketch) :
  readConfiguration pin fuel power_on = Some s ->
  (settings s = (0, 0, 0, TEST_WATCHDOG_PARAM, 1) \/
   (exists d m, 0 <= d <= 255 /\ 1 <= m <= 256 /\
      settings s = (37 * m, 60 * m, 1 * DAY + DAY * d, 9, m)) \/
   (exists d m, 0 <= d <= 255 /\ 1 <= m <= 256 /\
      settings s = (TEST_MIN_COUNTER_TRIGGER * m,
                    TEST_MAX_COUNTER_TRIGGER * m,
                    TEST_INITIAL_COUNTER_TRIGGER + DAY * d,
                    TEST_WATCHDOG_PARAM, m))) /\
  day_counter s = 0 /\ started s = false /\
  counter_trigger s = 0 /\ watchdog_counter s = 0.
Proof.
  intros H. apply (configured_settings pin). exists fuel. exact H.
Qed.

Lemma readConfiguration_settings_witness :
  (settings unactivated = (0, 0, 0, TEST_WATCHDOG_PARAM, 1) \/
   (exists d m, 0 <= d <= 255 /\ 1 <= m <= 256 /\
      settings unactivated = (37 * m, 60 * m, 1 * DAY + DAY * d, 9, m)) \/
   (exists d m, 0 <= d <= 255 /\ 1 <= m <= 256 /\
      settings unactivated = (TEST_MIN_COUNTER_TRIGGER * m,
                    TEST_MAX_COUNTER_TRIGGER * m,
                    TEST_INITIAL_COUNTER_TRIGGER + DAY * d,
                    TEST_WATCHDOG_PARAM, m))) /\
  day_counter unactivated = 0 /\ started unactivated = false /\
  counter_trigger unactivated = 0 /\ watchdog_counter unactivated = 0.
Proof.
  apply (readConfiguration_settings untouched 0 unactivated).
  apply readConfiguration_not_activated. intros t _. reflexivity.
Defined.

(** ** The modes of the running sketch *)

Lemma settings_fields (s : Sketch) (lo hi ini wd m : Z) :
  settings s = (lo, hi, ini, wd, m) ->
  MIN_COUNTER_TRIGGER s = lo /\ MAX_COUNTER_TRIGGER s = hi /\
  INITIAL_COUNTER_TRIGGER s = ini /\ WATCHDOG_PARAM s = wd /\
  device_count s = m.
Proof.
  unfold settings. intros H. injection H as -> -> -> -> ->. auto.
Qed.

Lemma configured_in_a_mode (pin : Z -> bool) (s : Sketch) :
  configured pin s -> in_a_mode s.
Proof.
  intros H. destruct (configured_settings pin s H) as [C _].
  unfold in_a_mode, mode.
  destruct C as [C|[(d & m & Hd & Hm & C)|(d & m & Hd & Hm & C)]];
    destruct (settings_fields _ _ _ _ _ _ C) as (-> & -> & _ & -> & ->).
  - right. right. repeat split; lia.
  - left. repeat split; lia.
  - right. left. repeat split; lia.
Qed.

Section ModeFacts.

Variable entropy : Z -> nat -> Z.
Variable beyond : Z -> Z.

Lemma loop_WATCHDOG_PARAM (s : Sketch) :
  WATCHDOG_PARAM (loop entropy beyond s) = WATCHDOG_PARAM s.
Proof.
  unfold loop. set (x := decay (count_day (sleep_mode s))).
  assert (Hx : WATCHDOG_PARAM x = WATCHDOG_PARAM s).
  { unfold x.
    destruct (decay_fields (count_day (sleep_mode s))) as (_ & D2 & _).
    rewrite D2. unfold count_day, sleep_mode, WDT_vect. sketch_fields.
    destruct (started s); reflexivity. }
  rewrite <- Hx.
  destruct (Z_le_gt_dec (counter_trigger x) (watchdog_counter x)) as [H|H].
  - pose proof (trigger_fire entropy beyond x H) as G.
    unfold globals in G. injection G as _ _ G _ _ _ _ _ _ _. exact G.
  - pose proof (trigger_idle entropy beyond x ltac:(lia)) as G.
    unfold globals in G. injection G as _ _ G _ _ _ _ _ _ _. exact G.
Qed.

Lemma loop_bounds (s : Sketch) :
  bounds (loop entropy beyond s)
  = if (day_counter (count_day (sleep_mode s)) >=? DAY * 3)
       && (device_count s >? 1)
    then (to_int (to_int (Z.quot (MIN_COUNTER_TRIGGER s) (device_count s))
                  * to_int (device_count s - 1)),
          to_int (to_int (Z.quot (MAX_COUNTER_TRIGGER s) (device_count s))
                  * to_int (device_count s - 1)),
          to_int (device_count s - 1))
    else bounds s.
Proof.
  unfold loop. rewrite trigger_bounds. unfold bounds. rewrite decay_bounds.
  unfold count_day, sleep_mode, WDT_vect. sketch_fields.
  destruct (started s); reflexivity.
Qed.

Lemma mode_loop (lo hi wd : Z) (s : Sketch) :
  0 <= lo <= 60 -> 0 <= hi <= 60 ->
  mode lo hi wd s -> mode lo hi wd (loop entropy beyond s).
Proof.
  intros Hlo Hhi (M1 & M2 & M3 & M4). unfold mode.
  rewrite loop_WATCHDOG_PARAM.
  pose proof (loop_bounds s) as B.
  destruct ((day_counter (count_day (sleep_mode s)) >=? DAY * 3)
            && (device_count s >? 1)) eqn:C.
  - apply andb_prop in C. destruct C as [_ C]. apply Z.gtb_lt in C.
    rewrite M1, M2 in B.
    rewrite !Z.quot_mul in B by lia.
    rewrite (to_int_small lo) in B by (unfold is_int; lia).
    rewrite (to_int_small hi) in B by (unfold is_int; lia).
    rewrite (to_int_small (device_count s - 1)) in B by (unfold is_int; lia).
    rewrite !to_int_small in B by (unfold is_int; nia).
    destruct (bounds_fields _ _ _ _ B) as (-> & -> & ->).
    repeat split; try lia; auto.
  - destruct (bounds_fields _ _ _ _ B) as (-> & -> & ->).
    repeat split; try lia; auto.
Qed.

Lemma in_a_mode_loop (s : Sketch) :
  in_a_mode s -> in_a_mode (loop entropy beyond s).
Proof.
  unfold in_a_mode, TEST_MIN_COUNTER_TRIGGER, TEST_MAX_COUNTER_TRIGGER.
  intros [H|[H|H]]; [left|right; left|right; right];
    apply mode_loop; try lia; exact H.
Qed.

Lemma in_a_mode_same (s s' : Sketch) :
  MIN_COUNTER_TRIGGER s' = MIN_COUNTER_TRIGGER s ->
  MAX_COUNTER_TRIGGER s' = MAX_COUNTER_TRIGGER s ->
  WATCHDOG_PARAM s' = WATCHDOG_PARAM s ->
  device_count s' = device_count s ->
  in_a_mode s -> in_a_mode s'.
Proof.
  unfold in_a_mode, mode. intros -> -> -> ->. tauto.
Qed.

Lemma running_in_a_mode (pin : Z -> bool) (s : Sketch) :
  running entropy beyond pin s -> in_a_mode s.
Proof.
  induction 1 as [fuel s Hsetup|s _ IH|s _ IH].
  - unfold setup in Hsetup.
    destruct (readConfiguration pin fuel power_on) as [c|] eqn:E;
      [|discriminate].
    injection Hsetup as <-.
    destruct (arm_fields entropy c) as (A1 & A2 & A3 & _ & A5 & _).
    apply (in_a_mode_same c); auto.
    apply (configured_in_a_mode pin). exists fuel. exact E.
  - apply in_a_mode_loop. exact IH.
  - apply (in_a_mode_same s); auto.
Qed.

(** In every state of the running sketch the interval bounds are exact
    multiples of the device count: (37, 60) times it with watchdog code 9,
    (2, 4) times it with watchdog code 7, or both 0.  Decay therefore leaves
    the bounds that configuration would have set for one device fewer, and
    the watchdog code never changes after [setup]. *)
Theorem running_modes (pin : Z -> bool) (s : Sketch) :
  running entropy beyond pin s ->
  in_a_mode s /\
  in_a_mode (loop entropy beyond s) /\
  WATCHDOG_PARAM (loop entropy beyond s) = WATCHDOG_PARAM s.
Proof.
  intros H. pose proof (running_in_a_mode pin s H) as M.
  split; [exact M|]. split; [apply in_a_mode_loop; exact M|].
  apply loop_WATCHDOG_PARAM.
Qed.

(** The first threshold: when [setup] returns, the threshold is the initial
    delay plus a draw between the bounds, without overflow, so the first
    episode is due no earlier than the initial delay plus the lower bound
    and no later than the initial delay plus the upper bound. *)
Theorem setup_first_threshold (pin : Z -> bool) (fuel : nat) (s : Sketch) :
  setup entropy pin fuel power_on = Some s ->
  INITIAL_COUNTER_TRIGGER s + MIN_COUNTER_TRIGGER s
  <= counter_trigger s
  <= INITIAL_COUNTER_TRIGGER s + MAX_COUNTER_TRIGGER s /\
  watchdog_counter s = 0 /\ started s = false /\ day_counter s = 0.
Proof.
  unfold setup. intros H.
  destruct (readConfiguration pin fuel power_on) as [c|] eqn:E;
    [|discriminate].
  injection H as <-.
  assert (Hc : configured pin c) by (exists fuel; exact E).
  destruct (configured_settings pin c Hc) as (C & C1 & C2 & _ & C4).
  destruct (configured_invariant pin c Hc)
    as [(T1 & T2 & _) (B1 & _)].
  destruct (arm_fields entropy c)
    as (A1 & A2 & _ & A4 & _ & A6 & A7 & A8 & A9).
  rewrite A1, A2, A4, A6, A7, A8, A9.
  destruct (random2_range entropy (MIN_COUNTER_TRIGGER c)
              (MAX_COUNTER_TRIGGER c)
              (randomSeed (millis (board c)) c) T1 T2 B1) as [Hr _].
  set (r := fst (random2 entropy (MIN_COUNTER_TRIGGER c)
                   (MAX_COUNTER_TRIGGER c)
                   (randomSeed (millis (board c)) c))) in *.
  assert (Hsmall : 0 <= INITIAL_COUNTER_TRIGGER c <= 256 * DAY /\
                   0 <= MIN_COUNTER_TRIGGER c /\
                   MAX_COUNTER_TRIGGER c <= 15360).
  { unfold TEST_MIN_COUNTER_TRIGGER, TEST_MAX_COUNTER_TRIGGER,
      TEST_INITIAL_COUNTER_TRIGGER, DAY in *.
    destruct C as [C|[(d & m & Hd & Hm & C)|(d & m & Hd & Hm & C)]];
      destruct (settings_fields _ _ _ _ _ _ C) as (-> & -> & -> & _ & _);
      lia. }
  rewrite to_long_small by (unfold is_long, DAY in *; lia).
  repeat split; auto; lia.
Qed.

End ModeFacts.

Lemma running_modes_witness :
  in_a_mode (arm no_entropy unactivated) /\
  in_a_mode (loop no_entropy no_stray (arm no_entropy unactivated)) /\
  WATCHDOG_PARAM (loop no_entropy no_stray (arm no_entropy unactivated))
  = WATCHDOG_PARAM (arm no_entropy unactivated).
Proof.
  apply (running_modes no_entropy no_stray untouched).
  exact running_unactivated.
Defined.

Lemma setup_first_threshold_witness :
  INITIAL_COUNTER_TRIGGER (arm no_entropy unactivated)
  + MIN_COUNTER_TRIGGER (arm no_entropy unactivated)
  <= counter_trigger (arm no_entropy unactivated)
  <= INITIAL_COUNTER_TRIGGER (arm no_entropy unactivated)
     + MAX_COUNTER_TRIGGER (arm no_entropy unactivated) /\
  watchdog_counter (arm no_entropy unactivated) = 0 /\
  started (arm no_entropy unactivated) = false /\
  day_counter (arm no_entropy unactivated) = 0.
Proof.
  apply (setup_first_threshold no_entropy untouched 0).
  apply setup_not_activated. intros t _. reflexivity.
Defined.

(** ** Between two episodes *)

Section IdleFacts.

Variable entropy : Z -> nat -> Z.
Variable beyond : Z -> Z.

Lemma started_before_trigger (s : Sketch) :
  started (decay (count_day (sleep_mode s))) = started s.
Proof.
  destruct (decay_fields (count_day (sleep_mode s)))
    as (_ & _ & _ & D4 & _).
  rewrite D4. unfold count_day.
  destruct (started (sleep_mode s)); reflexivity.
Qed.

(** A pass that does not fire: the watchdog counter has gone up by one, the
    threshold and the started flag are as they were. *)
Lemma loop_idle (s : Sketch) :
  is_long (watchdog_counter s + 1) ->
  watchdog_counter s + 1 < counter_trigger s ->
  watchdog_counter (loop entropy beyond s) = watchdog_counter s + 1 /\
  counter_trigger (loop entropy beyond s) = counter_trigger s /\
  started (loop entropy beyond s) = started s.
Proof.
  intros Hl Hlt. unfold loop.
  set (x := decay (count_day (sleep_mode s))).
  destruct (before_trigger s) as [E1 E2]. fold x in E1, E2.
  assert (E3 : watchdog_counter (sleep_mode s) = watchdog_counter s + 1).
  { unfold sleep_mode, WDT_vect. sketch_fields.
    apply to_long_small. exact Hl. }
  assert (E4 : started x = started s) by apply started_before_trigger.
  pose proof (trigger_idle entropy beyond x ltac:(lia)) as G.
  unfold globals in G. injection G as _ _ _ _ _ _ G7 G8 G9 _.
  rewrite G7, G8, G9. repeat split; congruence.
Qed.

Lemma loop_idle_iter (k : nat) : forall s,
  is_long (watchdog_counter s) -> is_long (counter_trigger s) ->
  watchdog_counter s + Z.of_nat k < counter_trigger s ->
  watchdog_counter (Nat.iter k (loop entropy beyond) s)
  = watchdog_counter s + Z.of_nat k /\
  counter_trigger (Nat.iter k (loop entropy beyond) s) = counter_trigger s /\
  started (Nat.iter k (loop entropy beyond) s) = started s.
Proof.
  induction k as [|k IH]; intros s Hw Hc Hlt.
  - cbn. repeat split; lia.
  - rewrite Nat.iter_succ.
    destruct (IH s Hw Hc ltac:(lia)) as (I1 & I2 & I3).
    destruct (loop_idle (Nat.iter k (loop entropy beyond) s))
      as (L1 & L2 & L3).
    + rewrite I1. unfold is_long in *. lia.
    + rewrite I1, I2. lia.
    + rewrite L1, L2, L3, I1, I2, I3. repeat split; lia.
Qed.

(** The episode comes when the threshold says: from a state whose watchdog
    counter is below the threshold, the passes of [loop] only count until
    the counter is one short of the threshold (the started flag does not
    change), and the pass after those fires, which clears the counter and
    sets the flag. *)
Theorem loop_counts_to_threshold (s : Sketch) :
  is_long (watchdog_counter s) -> is_long (counter_trigger s) ->
  watchdog_counter s < counter_trigger s ->
  let n := Z.to_nat (counter_trigger s - watchdog_counter s - 1) in
  (forall k, (k <= n)%nat ->
     watchdog_counter (Nat.iter k (loop entropy beyond) s)
     = watchdog_counter s + Z.of_nat k /\
     started (Nat.iter k (loop entropy beyond) s) = started s) /\
  watchdog_counter (Nat.iter (S n) (loop entropy beyond) s) = 0 /\
  started (Nat.iter (S n) (loop entropy beyond) s) = true.
Proof.
  intros Hw Hc Hlt n. split.
  - intros k Hk.
    destruct (loop_idle_iter k s Hw Hc ltac:(lia)) as (I1 & _ & I3).
    split; assumption.
  - destruct (loop_idle_iter n s Hw Hc ltac:(lia)) as (I1 & I2 & _).
    rewrite Nat.iter_succ.
    set (sn := Nat.iter n (loop entropy beyond) s) in *.
    unfold loop. set (x := decay (count_day (sleep_mode sn))).
    destruct (before_trigger sn) as [E1 E2]. fold x in E1, E2.
    assert (E3 : watchdog_counter (sleep_mode sn) = counter_trigger s).
    { unfold sleep_mode, WDT_vect. sketch_fields. rewrite I1.
      rewrite to_long_small; [lia|]. unfold is_long in *. lia. }
    pose proof (trigger_fire entropy beyond x ltac:(lia)) as G.
    unfold globals in G. injection G as _ _ _ _ _ _ G7 _ G9 _.
    split; assumption.
Qed.

Lemma decay_quiet (y : Sketch) :
  WATCHDOG_PARAM y <> TEST_WATCHDOG_PARAM ->
  board (decay y) = board y /\ draws (decay y) = draws y /\
  strays (decay y) = strays y /\ WATCHDOG_PARAM (decay y) = WATCHDOG_PARAM y.
Proof.
  intros Hwp. unfold decay.
  destruct (day_counter y >=? DAY * 3); [|auto].
  sketch_fields. destruct (device_count y >? 1); [|auto].
  unfold shrink. sketch_fields.
  destruct (Z.eqb_spec (WATCHDOG_PARAM y) TEST_WATCHDOG_PARAM);
    [contradiction|auto].
Qed.

(** No sound between episodes: in production mode a pass that does not fire
    leaves the board, the generator and the stray log as they were. *)
Theorem loop_idle_silent (s : Sketch) :
  WATCHDOG_PARAM s <> TEST_WATCHDOG_PARAM ->
  watchdog_counter (sleep_mode s) < counter_trigger s ->
  board (loop entropy beyond s) = board s /\
  draws (loop entropy beyond s) = draws s /\
  strays (loop entropy beyond s) = strays s.
Proof.
  intros Hwp Hlt. unfold loop.
  set (x := decay (count_day (sleep_mode s))).
  destruct (before_trigger s) as [E1 E2]. fold x in E1, E2.
  assert (Hx : board x = board s /\ draws x = draws s /\
               strays x = strays s /\ WATCHDOG_PARAM x = WATCHDOG_PARAM s).
  { assert (Hy : board (count_day (sleep_mode s)) = board s /\
                 draws (count_day (sleep_mode s)) = draws s /\
                 strays (count_day (sleep_mode s)) = strays s /\
                 WATCHDOG_PARAM (count_day (sleep_mode s))
                 = WATCHDOG_PARAM s).
    { unfold count_day. destruct (started (sleep_mode s)); auto. }
    destruct Hy as (Y1 & Y2 & Y3 & Y4).
    rewrite <- Y1, <- Y2, <- Y3, <- Y4. rewrite <- Y4 in Hwp.
    unfold x. apply decay_quiet. exact Hwp. }
  destruct Hx as (X1 & X2 & X3 & X4).
  unfold trigger.
  destruct (Z.geb_spec (watchdog_counter x) (counter_trigger x)); [lia|].
  destruct (Z.eqb_spec (WATCHDOG_PARAM x) TEST_WATCHDOG_PARAM);
    [congruence|auto].
Qed.

(** The day counter stands still until the first episode and counts every
    wake after it; once set, the started flag stays set. *)
Theorem day_counter_gated (s : Sketch) :
  is_long (day_counter s) -> day_counter s + 1 < DAY * 3 ->
  day_counter (loop entropy beyond s)
  = (if started s then day_counter s + 1 else day_counter s) /\
  (started s = true -> started (loop entropy beyond s) = true).
Proof.
  intros Hl Hlt.
  assert (Hd : day_counter (count_day (sleep_mode s))
               = if started s then day_counter s + 1 else day_counter s).
  { unfold count_day, sleep_mode, WDT_vect. sketch_fields.
    destruct (started s); sketch_fields; [|reflexivity].
    apply to_long_small. unfold is_long, DAY in *. lia. }
  split.
  - unfold loop. rewrite trigger_day_counter.
    destruct (decay_fields (count_day (sleep_mode s))) as (D1 & _).
    rewrite D1, Hd.
    destruct (started s);
      match goal with
      | |- context [?a >=? DAY * 3] =>
          destruct (Z.geb_spec a (DAY * 3)); [lia|reflexivity]
      end.
  - intros Hs. unfold loop.
    set (x := decay (count_day (sleep_mode s))).
    assert (Hx : started x = true)
      by (unfold x; rewrite started_before_trigger; exact Hs).
    destruct (Z_le_gt_dec (counter_trigger x) (watchdog_counter x)) as [H|H].
    + pose proof (trigger_fire entropy beyond x H) as G.
      unfold globals in G. injection G as _ _ _ _ _ _ G _ _ _. exact G.
    + pose proof (trigger_idle entropy beyond x ltac:(lia)) as G.
      unfold globals in G. injection G as _ _ _ _ _ _ G _ _ _.
      rewrite G. exact Hx.
Qed.

(** Decay only shortens: from bounds that are not negative, no pass of
    [loop] raises a bound or the device count, and no bound becomes
    negative. *)
Theorem loop_never_lengthens (s : Sketch) :
  typed s -> bounds_ok s -> 0 <= MIN_COUNTER_TRIGGER s ->
  0 <= MIN_COUNTER_TRIGGER (loop entropy beyond s) <= MIN_COUNTER_TRIGGER s /\
  0 <= MAX_COUNTER_TRIGGER (loop entropy beyond s) <= MAX_COUNTER_TRIGGER s /\
  1 <= device_count (loop entropy beyond s) <= device_count s.
Proof.
  intros (T1 & T2 & _ & _ & T5 & _) (B1 & B2) H0.
  pose proof (loop_bounds entropy beyond s) as B.
  destruct ((day_counter (count_day (sleep_mode s)) >=? DAY * 3)
            && (device_count s >? 1)) eqn:C.
  - apply andb_prop in C. destruct C as [_ C]. apply Z.gtb_lt in C.
    destruct (shrink_is_int _ _ T1 T5 ltac:(lia)) as [E1 _].
    destruct (shrink_is_int _ _ T2 T5 ltac:(lia)) as [E2 _].
    rewrite E1, E2 in B.
    rewrite (to_int_small (device_count s - 1)) in B
      by (unfold is_int in *; lia).
    destruct (bounds_fields _ _ _ _ B) as (-> & -> & ->).
    pose proof (Z.quot_rem' (MIN_COUNTER_TRIGGER s) (device_count s)).
    pose proof (Z.quot_rem' (MAX_COUNTER_TRIGGER s) (device_count s)).
    pose proof (Z.rem_bound_pos (MIN_COUNTER_TRIGGER s) (device_count s)
                  ltac:(lia) ltac:(lia)).
    pose proof (Z.rem_bound_pos (MAX_COUNTER_TRIGGER s) (device_count s)
                  ltac:(lia) ltac:(lia)).
    pose proof (Z.quot_pos (MIN_COUNTER_TRIGGER s) (device_count s)
                  ltac:(lia) ltac:(lia)).
    pose proof (Z.quot_pos (MAX_COUNTER_TRIGGER s) (device_count s)
                  ltac:(lia) ltac:(lia)).
    repeat split; nia.
  - destruct (bounds_fields _ _ _ _ B) as (-> & -> & ->).
    repeat split; lia.
Qed.

End IdleFacts.

Lemma loop_counts_to_threshold_witness :
  let s := five_to_go in
  let n := Z.to_nat (counter_trigger s - watchdog_counter s - 1) in
  (forall k, (k <= n)%nat ->
     watchdog_counter (Nat.iter k (loop no_entropy no_stray) s)
     = watchdog_counter s + Z.of_nat k /\
     started (Nat.iter k (loop no_entropy no_stray) s) = started s) /\
  watchdog_counter (Nat.iter (S n) (loop no_entropy no_stray) s) = 0 /\
  started (Nat.iter (S n) (loop no_entropy no_stray) s) = true.
Proof.
  intros s.
  apply (loop_counts_to_threshold no_entropy no_stray s);
    unfold is_long; cbn; lia.
Defined.

Lemma loop_idle_silent_witness :
  board (loop no_entropy no_stray five_to_go) = board five_to_go /\
  draws (loop no_entropy no_stray five_to_go) = draws five_to_go /\
  strays (loop no_entropy no_stray five_to_go) = strays five_to_go.
Proof.
  apply (loop_idle_silent no_entropy no_stray five_to_go).
  - cbn. unfold TEST_WATCHDOG_PARAM. lia.
  - cbn. lia.
Defined.

Lemma day_counter_gated_witness :
  day_counter (loop no_entropy no_stray five_to_go)
  = (if started five_to_go then day_counter five_to_go + 1
     else day_counter five_to_go) /\
  (started five_to_go = true ->
   started (loop no_entropy no_stray five_to_go) = true).
Proof.
  apply (day_counter_gated no_entropy no_stray five_to_go);
    unfold is_long, DAY; cbn; lia.
Defined.

Lemma loop_never_lengthens_witness :
  0 <= MIN_COUNTER_TRIGGER (loop no_entropy no_stray four_devices)
  <= MIN_COUNTER_TRIGGER four_devices /\
  0 <= MAX_COUNTER_TRIGGER (loop no_entropy no_stray four_devices)
  <= MAX_COUNTER_TRIGGER four_devices /\
  1 <= device_count (loop no_entropy no_stray four_devices)
  <= device_count four_devices.
Proof.
  apply (loop_never_lengthens no_entropy no_stray four_devices).
  - unfold typed, is_int, is_long, DAY. cbn. lia.
  - unfold bounds_ok. cbn. lia.
  - cbn. lia.
Defined.

(** ** The pins *)

Lemma park_pins_all (P : Pins) (y : Z) :
  park_pins 5 0 P y
  = if (0 <=? y) && (y <=? 4) && negb (y =? piezoPin)
    then (INPUT, false) else P y.
Proof.
  cbn [park_pins]. unfold piezoPin.
  change (to_int (0 + 1)) with 1. change (to_int (1 + 1)) with 2.
  change (to_int (2 + 1)) with 3. change (to_int (3 + 1)) with 4.
  cbn. unfold digitalWrite, pinMode.
  destruct (Z.eqb_spec y 4); [subst; reflexivity|].
  destruct (Z.eqb_spec y 2); [subst; reflexivity|].
  destruct (Z.eqb_spec y 1); [subst; reflexivity|].
  destruct (Z.eqb_spec y 0); [subst; reflexivity|].
  destruct (Z.eqb_spec y 3); [subst; reflexivity|].
  destruct (Z.leb_spec 0 y); destruct (Z.leb_spec y 4); cbn; try reflexivity.
  lia.
Qed.

(** The pins when [setup] is done with them: the piezo pin is an output and
    keeps its latch, every other pin from 0 to 4 (the activation pin among
    them) is an input with its pull-up off, and no other pin is touched. *)
Theorem setup_pins_parked (P : Pins) (y : Z) :
  setup_pins P y
  = if y =? piezoPin then (OUTPUT, snd (P y))
    else if (0 <=? y) && (y <=? 4) then (INPUT, false)
    else P y.
Proof.
  unfold setup_pins. rewrite park_pins_all.
  unfold pinMode, piezoPin, activationPin.
  destruct (Z.eqb_spec y 3); [subst; reflexivity|].
  destruct (Z.leb_spec 0 y); destruct (Z.leb_spec y 4); cbn; try reflexivity.
  destruct (Z.eqb_spec y 2); [lia|reflexivity].
  destruct (Z.eqb_spec y 2); [lia|reflexivity].
  destruct (Z.eqb_spec y 2); [lia|reflexivity].
Qed.

(** ** Configuration completes *)

(** If the operator leaves the activation pin alone from some moment on,
    configuration completes: with enough fuel [readConfiguration] returns a
    configuration and [setup] returns it armed. *)
Theorem configuration_completes (entropy : Z -> nat -> Z) (pin : Z -> bool)
  (T : Z) :
  (forall t, T <= t -> pin t = false) ->
  exists fuel0, forall fuel, (fuel0 <= fuel)%nat ->
    exists c,
      readConfiguration pin fuel power_on = Some c /\
      setup entropy pin fuel power_on = Some (arm entropy c).
Proof.
  intros Hq. exists (S (Z.to_nat (Z.max 0 T))). intros fuel Hf.
  destruct (readConfiguration_returns pin T Hq fuel ltac:(lia)) as [c Hc].
  exists c. split; [exact Hc|]. unfold setup. rewrite Hc. reflexivity.
Qed.

Lemma configuration_completes_witness :
  exists fuel0, forall fuel, (fuel0 <= fuel)%nat ->
    exists c,
      readConfiguration untouched fuel power_on = Some c /\
      setup no_entropy untouched fuel power_on = Some (arm no_entropy c).
Proof.
  apply (configuration_completes no_entropy untouched 0).
  intros t _. reflexivity.
Defined.
